(** * LiquidCore V82JSC: the object bridging layer (Object.cpp)

    A shallow embedding of [v8::Object] as implemented on top of the
    JavaScriptCore C API in
    [LiquidCoreiOS/LiquidCoreiOS/V82JSC/Object.cpp], with the properties
    the specification states about it.

    Layout of the development:
    - the host engine: values, property keys, objects, and the property
      operations of ordinary objects that the bridge reaches through the
      C API or through injected script snippets;
    - the isolate: the scheduled-exception cell, the catch scopes and the
      side table of instance records;
    - the functions of Object.cpp, in the order of the source;
    - the properties. *)

From Stdlib Require Import ZArith String List Bool Lia DecimalString DecimalZ DecimalPos.
From stdpp Require Import base option gmap strings list.

Local Open Scope string_scope.
Local Open Scope Z_scope.

(** ** Host values *)

(** A host value. Numbers are integers plus the one non-number the
    snippets can tell apart ([NaN == NaN] is false). *)
Inductive JSValue : Type :=
  | JSUndefined
  | JSNull
  | JSBoolean (b : bool)
  | JSNumber (n : Z)
  | JSNaN
  | JSString (s : string)
  | JSSymbol (id : nat)
  | JSObject (ref : nat).

(** [JSValueRef]: a nullable reference to a host value ([nullptr] is [None]).
    [Local<Value>] handles wrap exactly such a reference, the empty handle
    being the null one, so [ValueImpl::New] and [V82JSC::ToJSValueRef] are
    the identity here. *)
Abbreviation JSValueRef := (option JSValue) (only parsing).

(** [JSObjectRef]: the address of a host object. *)
Abbreviation JSObjectRef := nat (only parsing).

#[global] Instance JSValue_eq_dec : EqDecision JSValue.
Proof. solve_decision. Defined.

(** Property keys: strings and symbols. *)
Inductive PropertyKey : Type :=
  | PKString (s : string)
  | PKSymbol (id : nat).

#[global] Instance PropertyKey_eq_dec : EqDecision PropertyKey.
Proof. solve_decision. Defined.

#[global] Instance PropertyKey_countable : Countable PropertyKey.
Proof.
  refine (inj_countable'
            (fun k => match k with PKString s => inl s | PKSymbol i => inr i end)
            (fun x => match x with inl s => PKString s | inr i => PKSymbol i end) _).
  intros []; reflexivity.
Defined.

(** Decimal form of an integer, as [sprintf("%d")] and the host's
    number-to-string conversion print it. *)
Definition decimal (z : Z) : string := NilZero.string_of_int (Z.to_int z).

(** ToPropertyKey of the host: symbols stay symbols, primitives take their
    string form, objects take the form the default [toString] gives. *)
Definition ToPropertyKey (v : JSValue) : PropertyKey :=
  match v with
  | JSUndefined => PKString "undefined"
  | JSNull => PKString "null"
  | JSBoolean true => PKString "true"
  | JSBoolean false => PKString "false"
  | JSNumber n => PKString (decimal n)
  | JSNaN => PKString "NaN"
  | JSString s => PKString s
  | JSSymbol i => PKSymbol i
  | JSObject _ => PKString "[object Object]"
  end.

(** [JSValueToBoolean]; a null reference reads as the host's null. *)
Definition JSValueToBoolean (v : JSValueRef) : bool :=
  match v with
  | None => false
  | Some JSUndefined => false
  | Some JSNull => false
  | Some (JSBoolean b) => b
  | Some (JSNumber n) => negb (n =? 0)
  | Some JSNaN => false
  | Some (JSString s) => negb (String.eqb s "")
  | Some (JSSymbol _) => true
  | Some (JSObject _) => true
  end.

(** The [==] of the host on operands of one type, with null and undefined
    equal to each other. The coercions between different types are not
    needed: the one use compares a value with itself. *)
Definition loose_equal (x y : JSValue) : bool :=
  match x, y with
  | JSNaN, _ | _, JSNaN => false
  | JSUndefined, JSUndefined | JSUndefined, JSNull
  | JSNull, JSUndefined | JSNull, JSNull => true
  | JSBoolean a, JSBoolean b => Bool.eqb a b
  | JSNumber a, JSNumber b => a =? b
  | JSString a, JSString b => String.eqb a b
  | JSSymbol a, JSSymbol b => Nat.eqb a b
  | JSObject a, JSObject b => Nat.eqb a b
  | _, _ => false
  end.

(** Exception values the host itself raises. *)
Definition TypeError : JSValue := JSString "TypeError".
Definition RangeError : JSValue := JSString "RangeError".

(** ** Host objects *)

(** A native function pointer of the embedder
    ([AccessorNameGetterCallback], [AccessorNameSetterCallback]), by address;
    the null pointer is [None] where a pointer is optional. *)
Abbreviation FnPtr := nat (only parsing).

(** [struct AccessorInfo] of [Object::SetAccessor] (the context it also
    holds is the one context of this model). *)
Record AccessorInfo : Type := mkAccessorInfo {
  getter : option FnPtr;
  setter : option FnPtr;
  m_property : JSValueRef;
  m_data : JSValueRef
}.

(** What calling a host object runs: the native [callback] lambda of
    [Object::SetAccessor] with its private payload, or the script function
    [function(v) { delete this[_2]; this[_2] = v; }] that the snippet of
    [Object::SetAccessorProperty] creates, closed over [_2], or the
    built-in [Object.prototype.hasOwnProperty] of the host, which the
    snippet of [Object::HasPrivate] reaches by a property lookup. *)
Inductive Callable : Type :=
  | CallAccessor (wrap : AccessorInfo)
  | CallReplaceSetter (name : JSValueRef)
  | CallHasOwnProperty.

(** An own property: a data property or an accessor property. *)
Inductive Property : Type :=
  | DataProperty (value : JSValue) (writable enumerable configurable : bool)
  | AccessorProperty (get set : option JSObjectRef) (enumerable configurable : bool).

Record JSObjectData : Type := mkObject {
  props : gmap PropertyKey Property;
  proto : JSValue;
  extensible : bool;
  call : option Callable
}.

(** ** Instance records and the isolate *)

(** [TemplateImpl]: a template with the link to the template it inherits
    from. A template is identified by its address, which is what
    [t == tmplimpl] compares. *)
#[warnings="-register-all"]
Inductive TemplateImpl : Type :=
  | mkTemplate (address : nat) (m_parent : option TemplateImpl).

Definition address_of (t : TemplateImpl) : nat :=
  match t with mkTemplate a _ => a end.

Definition parent_of (t : TemplateImpl) : option TemplateImpl :=
  match t with mkTemplate _ p => p end.

Record ObjectTemplateImpl : Type := mkObjectTemplate {
  m_constructor_template : option TemplateImpl
}.

(** [InstanceWrap]: the record the side table keeps for a native object,
    with the fields Object.cpp reads and writes. The number of internal
    fields is an [int], the type [Object::InternalFieldCount] returns it
    as, so that [index < wrap->m_num_internal_fields] compares two signed
    numbers. *)
Record InstanceWrap : Type := mkInstanceWrap {
  m_num_internal_fields : Z;
  m_internal_fields : list JSValueRef;
  m_private_properties : option JSObjectRef;
  m_object_template : option ObjectTemplateImpl;
  m_hash : Z
}.

(** The exception state of the isolate: the scheduled-exception cell,
    where [the_hole_value] is [None], and the active [TryCatch] scopes,
    innermost first, each with the exception it has caught. *)
Record IsolateImpl : Type := mkIsolate {
  scheduled_exception_ : JSValueRef;
  try_catch_ : list JSValueRef
}.

(** Everything an operation of the bridge can read or change. *)
Record World : Type := mkWorld {
  heap : gmap JSObjectRef JSObjectData;
  object_prototype : JSValue;
  instances : gmap JSObjectRef InstanceWrap;
  isolate : IsolateImpl
}.

Definition set_heap (h : gmap JSObjectRef JSObjectData) (w : World) : World :=
  mkWorld h (object_prototype w) (instances w) (isolate w).

Definition set_instances (i : gmap JSObjectRef InstanceWrap) (w : World) : World :=
  mkWorld (heap w) (object_prototype w) i (isolate w).

Definition set_isolate (i : IsolateImpl) (w : World) : World :=
  mkWorld (heap w) (object_prototype w) (instances w) i.

Definition set_scheduled_exception (e : JSValueRef) (w : World) : World :=
  set_isolate (mkIsolate e (try_catch_ (isolate w))) w.

(** ** Results of native code *)

(** A call into the bridge returns with a value and a new world, or stops
    the process on a failed [assert], or leaves the defined behaviour of
    C++ (a call through a null function pointer, an array access out of
    its bounds). *)
Inductive Outcome (A : Type) : Type :=
  | Returned (a : A) (w : World)
  | Aborted
  | UndefinedBehavior.

Arguments Returned {A} a w.
Arguments Aborted {A}.
Arguments UndefinedBehavior {A}.

Definition M (A : Type) : Type := World -> Outcome A.

Definition ret {A : Type} (a : A) : M A := fun w => Returned a w.

Definition bind {A B : Type} (m : M A) (f : A -> M B) : M B :=
  fun w =>
    match m w with
    | Returned a w' => f a w'
    | Aborted => Aborted
    | UndefinedBehavior => UndefinedBehavior
    end.

Notation "'let*' x ':=' c1 'in' c2" := (bind c1 (fun x => c2))
  (at level 10, x pattern, c1 at level 100, c2 at level 200).

(** [assert(c)] of <cassert>, with assertions compiled in. *)
Definition assert (c : bool) : M unit :=
  fun w => if c then Returned tt w else Aborted.

Definition get_world : M World := fun w => Returned w w.

Definition modify (f : World -> World) : M unit := fun w => Returned tt (f w).

(** The outcome of a host operation that can throw. *)
Inductive Completion (A : Type) : Type :=
  | Normal (a : A)
  | Throw (e : JSValue).

Arguments Normal {A} a.
Arguments Throw {A} e.

(** ** The embedder *)

(** The frame a property callback receives ([implicit] in the source):
    holder, data and receiver. *)
Record PropertyCallbackInfo : Type := mkInfo {
  Holder : JSValueRef;
  Data : JSValueRef;
  This : JSValueRef
}.

(** Code and constants of the embedding application and of the parts of
    V82JSC outside Object.cpp. The native callbacks are arbitrary: they see
    and may change the whole world, and signal a failure in the catch scope
    or in the scheduled-exception cell. A getter leaves its return-value
    slot a value or the hole ([None]). *)
Class Embedder : Type := mkEmbedder {
  call_getter : FnPtr -> JSValueRef -> PropertyCallbackInfo -> World -> World * JSValueRef;
  call_setter : FnPtr -> JSValueRef -> JSValueRef -> PropertyCallbackInfo -> World -> World;
  stack_limit : nat;
  IsArrayBuffer : JSObjectRef -> World -> bool;
  IsArrayBufferView : JSObjectRef -> World -> bool;
  GetArrayBufferInfo : JSObjectRef -> World -> World;
  GetArrayBufferViewInfo : JSObjectRef -> World -> World;
  kInternalFieldCount : Z
}.

(** ** Ordinary objects of the host *)

(** The host engine, JavaScriptCore, is not part of the repository. Its
    objects are taken to be the ordinary objects of ECMA-262: own
    properties with their attributes, a prototype link and an extensible
    flag. Proxies and other exotic objects, and the conversion of an
    object to a primitive by its own methods, are outside the model. An
    Array is there as far as the bridge reads it: its elements and a
    "length" that is not configurable. What the host does on a write to
    an Array (the "length" and the elements follow each other) or to a
    typed array (the value is converted to the element type) is not what
    [JSSet] describes; the statements about a write that is read back are
    made for the objects that pass [ordinary]. *)

(** A null value reference handed to the host reads as its null. *)
Definition toJS (r : JSValueRef) : JSValue := default JSNull r.

Definition GetOwnProperty (w : World) (o : JSObjectRef) (k : PropertyKey)
  : option Property :=
  match heap w !! o with
  | Some obj => props obj !! k
  | None => None
  end.

(** The first property named [k] on the prototype chain that starts at
    [v], searching at most [fuel] objects. *)
Fixpoint find_property_from (fuel : nat) (w : World) (v : JSValue) (k : PropertyKey)
  : option Property :=
  match fuel, v with
  | S n, JSObject o =>
      match heap w !! o with
      | Some obj =>
          match props obj !! k with
          | Some p => Some p
          | None => find_property_from n w (proto obj) k
          end
      | None => None
      end
  | _, _ => None
  end.

(** A prototype chain without a cycle visits each object of the heap at
    most once, so the size of the heap bounds the search. *)
Definition find_property (w : World) (o : JSObjectRef) (k : PropertyKey)
  : option Property :=
  find_property_from (S (size (heap w))) w (JSObject o) k.

Definition is_configurable (p : Property) : bool :=
  match p with
  | DataProperty _ _ _ c => c
  | AccessorProperty _ _ _ c => c
  end.

Definition update_object (o : JSObjectRef) (f : JSObjectData -> JSObjectData)
  (w : World) : World :=
  set_heap (alter f o (heap w)) w.

Definition put_property (o : JSObjectRef) (k : PropertyKey) (p : Property)
  : World -> World :=
  update_object o
    (fun obj => mkObject (<[k := p]> (props obj)) (proto obj) (extensible obj) (call obj)).

Definition remove_property (o : JSObjectRef) (k : PropertyKey) : World -> World :=
  update_object o
    (fun obj => mkObject (delete k (props obj)) (proto obj) (extensible obj) (call obj)).

(** [JSObjectMake]: a fresh extensible object without properties, whose
    prototype is the object prototype of the context; [c] is what calling
    it runs, if it is callable. *)
Definition JSObjectMake (c : option Callable) (w : World) : JSObjectRef * World :=
  let r := fresh (dom (heap w)) in
  (r, set_heap (<[r := mkObject ∅ (object_prototype w) true c]> (heap w)) w).

(** The [delete] operator outside strict code: a missing property counts
    as deleted, a property that is not configurable stays. *)
Definition JSDelete (o : JSObjectRef) (k : PropertyKey) (w : World) : bool * World :=
  match GetOwnProperty w o k with
  | None => (true, w)
  | Some p => if is_configurable p then (true, remove_property o k w) else (false, w)
  end.

(** The write of a data property on the receiver, after the lookup has
    found no setter in the way. *)
Definition set_data_property (o : JSObjectRef) (k : PropertyKey) (v : JSValue)
  (w : World) : bool * World :=
  match heap w !! o with
  | None => (false, w)
  | Some obj =>
      match props obj !! k with
      | Some (AccessorProperty _ _ _ _) => (false, w)
      | Some (DataProperty _ false _ _) => (false, w)
      | Some (DataProperty _ true e c) => (true, put_property o k (DataProperty v true e c) w)
      | None =>
          if extensible obj
          then (true, put_property o k (DataProperty v true true true) w)
          else (false, w)
      end
  end.

(** ** Catch scopes (TryCatch) and LocalException *)

(** Modelled from the spec: [TryCatch] is not in Object.cpp. Opening a
    catch scope pushes an empty scope on the stack of active scopes;
    [HasCaught] and [Exception] read the innermost scope; leaving the scope
    pops it. *)
Definition TryCatch_enter (w : World) : World :=
  set_isolate (mkIsolate (scheduled_exception_ (isolate w))
                         (None :: try_catch_ (isolate w))) w.

(** Modelled from the spec: [TryCatch::Exception], the exception the
    innermost catch scope has caught, null if none. *)
Definition TryCatch_Exception (w : World) : JSValueRef :=
  match try_catch_ (isolate w) with
  | e :: _ => e
  | [] => None
  end.

(** Modelled from the spec: [TryCatch::HasCaught]. *)
Definition TryCatch_HasCaught (w : World) : bool :=
  match TryCatch_Exception w with Some _ => true | None => false end.

(** Modelled from the spec: the end of the scope of a [TryCatch]. *)
Definition TryCatch_leave (w : World) : World :=
  set_isolate (mkIsolate (scheduled_exception_ (isolate w))
                         (tail (try_catch_ (isolate w)))) w.

(** Modelled from the spec: [LocalException] is not in Object.cpp. It is
    the exception out-parameter handed to the host; [ShouldThow] tells
    whether the host has filled it, and at the end of its scope a filled
    one is passed on to the exception channel of the isolate: to the
    innermost catch scope if one is open and has caught nothing yet,
    otherwise to the scheduled-exception cell. *)
Definition ShouldThow (exception : JSValueRef) : bool :=
  match exception with Some _ => true | None => false end.

(** Modelled from the spec: the end of the scope of a [LocalException]. *)
Definition LocalException_leave (exception : JSValueRef) (w : World) : World :=
  match exception with
  | None => w
  | Some e =>
      match try_catch_ (isolate w) with
      | None :: rest =>
          set_isolate (mkIsolate (scheduled_exception_ (isolate w)) (Some e :: rest)) w
      | _ => set_scheduled_exception (Some e) w
      end
  end.

(** ** Return conventions *)

Inductive Maybe (A : Type) : Type :=
  | Nothing
  | Just (a : A).

Arguments Nothing {A}.
Arguments Just {A} a.

(** [_maybe<T>]: the success flag and the value, which is only read when
    the flag is set. *)
Record _maybe (A : Type) : Type := mk_maybe {
  has_value_ : bool;
  value_ : A
}.

Arguments mk_maybe {A} has_value_ value_.
Arguments has_value_ {A} _.
Arguments value_ {A} _.

Definition toMaybe {A : Type} (out : _maybe A) : Maybe A :=
  if has_value_ out then Just (value_ out) else Nothing.

(** [MaybeLocal<T>] and [Local<T>]: a value reference, empty when null. *)
Abbreviation MaybeLocal := (option JSValue) (only parsing).
Abbreviation Local := (option JSValue) (only parsing).

Definition Undefined : Local := Some JSUndefined.

(** The test of a pointer against null. *)
Definition non_null {A : Type} (p : option A) : bool :=
  match p with Some _ => true | None => false end.

Section Bridge.

Context {embedder : Embedder}.

(** ** The accessor invocation handler

    The [callback] lambda of [Object::SetAccessor]: what the host runs when
    it calls an accessor function, with the payload [wrap] of the function,
    the receiver and the arguments. It returns the value for the host and
    the content of the exception out-parameter. The two lines of the source
    that would hold and put back the scheduled exception are commented out
    there, and have no counterpart here. *)
Definition callback (wrap : AccessorInfo) (thisObject : JSObjectRef)
  (arguments : list JSValueRef) : M (JSValueRef * JSValueRef) :=
  let thiz : JSValueRef := Some (JSObject thisObject) in
  let data : JSValueRef := m_data wrap in
  let implicit := mkInfo thiz data thiz in
  let* _ := modify (set_scheduled_exception None) in
  let* _ := modify TryCatch_enter in
  let* result :=
    match arguments with
    | [] =>
        match getter wrap with
        | None => fun _ => UndefinedBehavior
        | Some g =>
            fun w =>
              let '(w', slot) := call_getter g (m_property wrap) implicit w in
              Returned (Some (default JSUndefined slot)) w'
        end
    | a0 :: _ =>
        match setter wrap with
        | None => fun _ => UndefinedBehavior
        | Some s =>
            fun w => Returned (Some JSUndefined) (call_setter s (m_property wrap) a0 implicit w)
        end
    end in
  let* w := get_world in
  let* exception :=
    if TryCatch_HasCaught w then ret (TryCatch_Exception w)
    else
      match scheduled_exception_ (isolate w) with
      | Some e => let* _ := modify (set_scheduled_exception None) in ret (Some e)
      | None => ret None
      end in
  let* _ := modify TryCatch_leave in
  ret (result, exception).

(** ** Calls, reads and writes of the host *)

(** What the host makes of a native call: a filled exception slot is a
    throw. *)
Definition completion_of_callback (r : JSValueRef * JSValueRef) : Completion JSValue :=
  match snd r with
  | Some e => Throw e
  | None => Normal (toJS (fst r))
  end.

(** Calling the object [f] with receiver [this]; [set] is the property
    write of the host at the remaining stack depth. *)
Definition JSCall_with
  (set : JSObjectRef -> PropertyKey -> JSValue -> M (Completion bool))
  (f : JSObjectRef) (this : JSObjectRef) (args : list JSValue)
  : M (Completion JSValue) :=
  fun w =>
    match heap w !! f ≫= call with
    | None => Returned (Throw TypeError) w
    | Some (CallAccessor wrap) =>
        (let* r := callback wrap this (map Some args) in
         ret (completion_of_callback r)) w
    | Some (CallReplaceSetter name) =>
        let k := ToPropertyKey (toJS name) in
        let v := default JSUndefined (head args) in
        (let* _ := (fun w => Returned tt (snd (JSDelete this k w))) in
         let* c := set this k v in
         match c with
         | Throw e => ret (Throw e)
         | Normal _ => ret (Normal JSUndefined)
         end) w
    | Some CallHasOwnProperty =>
        let k := ToPropertyKey (default JSUndefined (head args)) in
        Returned (Normal (JSBoolean (bool_decide (is_Some (GetOwnProperty w this k))))) w
    end.

(** The property write [o[k] = v] with receiver [o]: the first property
    named [k] on the prototype chain decides. A setter is called, a
    read-only property or an accessor without setter refuses the write,
    anything else makes the write a data property of [o]. This is the
    write of an ordinary object; an Array and a typed array have their
    own. [depth] is the stack left for nested calls; the host raises a
    RangeError when it is used up. *)
Fixpoint JSSet (depth : nat) (o : JSObjectRef) (k : PropertyKey) (v : JSValue)
  : M (Completion bool) :=
  fun w =>
    match find_property w o k with
    | Some (AccessorProperty _ None _ _) => Returned (Normal false) w
    | Some (AccessorProperty _ (Some f) _ _) =>
        match depth with
        | O => Returned (Throw RangeError) w
        | S d =>
            (let* c := JSCall_with (JSSet d) f o [v] in
             match c with
             | Throw e => ret (Throw e)
             | Normal _ => ret (Normal true)
             end) w
        end
    | Some (DataProperty _ false _ _) => Returned (Normal false) w
    | Some (DataProperty _ true _ _) | None =>
        let '(b, w') := set_data_property o k v w in Returned (Normal b) w'
    end.

Definition JSCall : JSObjectRef -> JSObjectRef -> list JSValue -> M (Completion JSValue) :=
  JSCall_with (JSSet stack_limit).

(** The property read [o[k]] with receiver [o]. *)
Definition JSGet (o : JSObjectRef) (k : PropertyKey) : M (Completion JSValue) :=
  fun w =>
    match find_property w o k with
    | None => Returned (Normal JSUndefined) w
    | Some (DataProperty v _ _ _) => Returned (Normal v) w
    | Some (AccessorProperty None _ _ _) => Returned (Normal JSUndefined) w
    | Some (AccessorProperty (Some g) _ _ _) => JSCall g o [] w
    end.

(** [k in o]. *)
Definition JSHas (o : JSObjectRef) (k : PropertyKey) (w : World) : bool :=
  match find_property w o k with Some _ => true | None => false end.

(** ** The C API of the host, as Object.cpp calls it *)

(** [JSObjectSetProperty] with [kJSPropertyAttributeNone]; the result is
    the exception out-parameter. *)
Definition JSObjectSetProperty (obj : JSObjectRef) (propertyName : string)
  (value : JSValueRef) : M JSValueRef :=
  let* c := JSSet stack_limit obj (PKString propertyName) (toJS value) in
  match c with
  | Throw e => ret (Some e)
  | Normal _ => ret None
  end.

(** [JSObjectGetProperty]: the value and the exception out-parameter. *)
Definition JSObjectGetProperty (obj : JSObjectRef) (propertyName : string)
  : M (JSValueRef * JSValueRef) :=
  let* c := JSGet obj (PKString propertyName) in
  match c with
  | Throw e => ret (None, Some e)
  | Normal v => ret (Some v, None)
  end.

Definition JSObjectHasProperty (obj : JSObjectRef) (propertyName : string) : M bool :=
  fun w => Returned (JSHas obj (PKString propertyName) w) w.

(** [JSObjectDeleteProperty]: the result and the exception out-parameter,
    which deleting from an ordinary object never fills. *)
Definition JSObjectDeleteProperty (obj : JSObjectRef) (propertyName : string)
  : M (bool * JSValueRef) :=
  fun w =>
    let '(b, w') := JSDelete obj (PKString propertyName) w in
    Returned (b, None) w'.

(** Whether the prototype chain that starts at [v] passes through the
    object [o], searching at most [fuel] objects. *)
Fixpoint chain_reaches (fuel : nat) (w : World) (v : JSValue) (o : JSObjectRef) : bool :=
  match fuel, v with
  | S n, JSObject r =>
      if Nat.eqb r o then true
      else match heap w !! r with
           | Some obj => chain_reaches n w (proto obj) o
           | None => false
           end
  | _, _ => false
  end.

(** [JSObjectSetPrototype]: a value that is not an object stands for the
    null prototype. The host changes the prototype with its cycle check
    and reports nothing: an object that is not extensible keeps its
    prototype, and so does an object that the chain of the new prototype
    passes through. *)
Definition JSObjectSetPrototype (obj : JSObjectRef) (value : JSValueRef) : M unit :=
  let p := match value with Some (JSObject r) => JSObject r | _ => JSNull end in
  fun w =>
    match heap w !! obj with
    | None => Returned tt w
    | Some o =>
        if negb (extensible o) then Returned tt w
        else if chain_reaches (S (size (heap w))) w p obj then Returned tt w
        else Returned tt (update_object obj
                            (fun o => mkObject (props o) p (extensible o) (call o)) w)
    end.

(** ** The snippet executor *)

(** The script sources Object.cpp hands to [V82JSC::exec]. *)
Inductive Snippet : Type :=
  | SnippetSet
  | SnippetGet
  | SnippetIn
  | SnippetDelete
  | SnippetHasOwnProperty
  | SnippetAssign
  | SnippetGetOwnPropertyNames
  | SnippetGetPrototypeOf
  | SnippetDefineAccessor
  | SnippetHasOwnDescriptor
  | SnippetPropertyAttributes
  | SnippetForIn.

Definition source (s : Snippet) : string :=
  match s with
  | SnippetSet => "return _3 == (_1[_2] = _3)"
  | SnippetGet => "return _1[_2]"
  | SnippetIn => "return (_2 in _1)"
  | SnippetDelete => "return delete _1[_2]"
  | SnippetHasOwnProperty => "return _1.hasOwnProperty(_2)"
  | SnippetAssign => "_1[_2] = _3"
  | SnippetGetOwnPropertyNames => "return Object.getOwnPropertyNames(_1)"
  | SnippetGetPrototypeOf => "return Object.getPrototypeOf(_1)"
  | SnippetDefineAccessor =>
      "delete _1[_2]; "
      ++ "if (!_4) Object.defineProperty(_1, _2, { get: _3, "
      ++ "set: function(v) { delete this[_2]; this[_2] = v; }, configurable: true }); "
      ++ "else if (!_3) Object.defineProperty(_1, _2, { set: _4, configurable: true }); "
      ++ "else Object.defineProperty(_1, _2, { get: _3, set: _4, configurable: true });"
  | SnippetHasOwnDescriptor =>
      "return Object.getOwnPropertyDescriptor(_1, _2) !== undefined"
  | SnippetPropertyAttributes =>
      "const None = 0, ReadOnly = 1 << 0, DontEnum = 1 << 1, DontDelete = 1 << 2; "
      ++ "var d = Object.getOwnPropertyDescriptor(_1, _2); "
      ++ "var attr = None; if (!d) return attr; "
      ++ "attr |= (!d.writable) ? ReadOnly : 0; "
      ++ "attr |= (!d.enumerable) ? DontEnum : 0; "
      ++ "attr |= (!d.configurable) ? DontDelete : 0; "
      ++ "return attr"
  | SnippetForIn => "var keys = []; for (var k in _1) keys.push(k); return keys"
  end.

(** The value of the placeholder [_(i+1)]: a missing argument is
    undefined, a null reference is null. *)
Definition placeholder (i : nat) (args : list JSValueRef) : JSValue :=
  match args !! i with
  | Some r => toJS r
  | None => JSUndefined
  end.

(** The bridge always passes the object as [_1]; anything else there, or an
    address without an object, is a TypeError. *)
Definition with_object {A : Type} (v : JSValue)
  (body : JSObjectRef -> M (Completion A)) : M (Completion A) :=
  fun w =>
    match v with
    | JSObject o =>
        match heap w !! o with
        | Some _ => body o w
        | None => Returned (Throw TypeError) w
        end
    | _ => Returned (Throw TypeError) w
    end.

(** The names of the own properties with a string key, as
    [Object.getOwnPropertyNames] lists them (the order of the list is that
    of the property table, not the order of insertion). *)
Definition own_property_names (obj : JSObjectData) : list JSValue :=
  omap (fun kp => match fst kp with
                  | PKString s => Some (JSString s)
                  | PKSymbol _ => None
                  end)
       (map_to_list (props obj)).

(** The string keys of all own properties, and of the enumerable ones. *)
Definition string_keys (enumerable_only : bool) (obj : JSObjectData) : list string :=
  omap (fun kp => match kp with
                  | (PKString s, DataProperty _ _ e _)
                  | (PKString s, AccessorProperty _ _ e _) =>
                      if enumerable_only && negb e then None else Some s
                  | (PKSymbol _, _) => None
                  end)
       (map_to_list (props obj)).

(** The names a [for]-[in] loop visits from [v] on: the enumerable string
    keys of each object of the prototype chain that no object before it on
    the chain has as a key, searching at most [fuel] objects. *)
Fixpoint for_in_keys (fuel : nat) (w : World) (v : JSValue) (seen : list string)
  : list string :=
  match fuel, v with
  | S n, JSObject o =>
      match heap w !! o with
      | Some obj =>
          filter (fun s => s ∉ seen) (string_keys true obj)
          ++ for_in_keys n w (proto obj) (string_keys false obj ++ seen)
      | None => []
      end
  | _, _ => []
  end.

(** The flags [GetPropertyAttributes] computes from a property: ReadOnly
    is 1, DontEnum is 2, DontDelete is 4. The descriptor of an accessor
    has no [writable], which reads as not writable. *)
Definition attributes_of (p : Property) : Z :=
  match p with
  | DataProperty _ wr e c =>
      Z.lor (Z.lor (if wr then 0 else 1) (if e then 0 else 2)) (if c then 0 else 4)
  | AccessorProperty _ _ e c =>
      Z.lor (Z.lor 1 (if e then 0 else 2)) (if c then 0 else 4)
  end.

Fixpoint array_props (i : nat) (vs : list JSValue) : gmap PropertyKey Property :=
  match vs with
  | [] => ∅
  | v :: rest =>
      <[PKString (decimal (Z.of_nat i)) := DataProperty v true true true]>
        (array_props (S i) rest)
  end.

(** A new array with the elements [vs], as its readers see it: the
    elements under their indices, and the "length", which an Array keeps
    and which is writable, not enumerable and not configurable. *)
Definition make_array (vs : list JSValue) (w : World) : JSObjectRef * World :=
  let r := fresh (dom (heap w)) in
  let length := DataProperty (JSNumber (Z.of_nat (List.length vs))) true false false in
  (r, set_heap (<[r := mkObject (<[PKString "length" := length]> (array_props O vs))
                                (object_prototype w) true None]> (heap w)) w).

(** A field of a property descriptor that names an accessor function: it
    is absent, undefined, or a callable object. *)
Definition accessor_field (w : World) (field : option JSValue)
  : Completion (option JSObjectRef) :=
  match field with
  | None | Some JSUndefined => Normal None
  | Some (JSObject f) =>
      match heap w !! f ≫= call with
      | Some _ => Normal (Some f)
      | None => Throw TypeError
      end
  | Some _ => Throw TypeError
  end.

(** [Object.defineProperty(o, k, { get, set, configurable: true })]: a
    property that is not configurable cannot be redefined, a new property
    needs an extensible object and is not enumerable. *)
Definition defineProperty (o : JSObjectRef) (k : PropertyKey)
  (get set : option JSValue) : M (Completion JSValue) :=
  fun w =>
    match accessor_field w get, accessor_field w set with
    | Throw e, _ | Normal _, Throw e => Returned (Throw e) w
    | Normal g, Normal s =>
        match heap w !! o with
        | None => Returned (Throw TypeError) w
        | Some obj =>
            match props obj !! k with
            | Some p =>
                if is_configurable p
                then
                  let e := match p with
                           | DataProperty _ _ e _ | AccessorProperty _ _ e _ => e
                           end in
                  Returned (Normal (JSObject o)) (put_property o k (AccessorProperty g s e true) w)
                else Returned (Throw TypeError) w
            | None =>
                if extensible obj
                then Returned (Normal (JSObject o))
                              (put_property o k (AccessorProperty g s false true) w)
                else Returned (Throw TypeError) w
            end
        end
    end.

(** What each snippet does, as a function of its arguments. The built-in
    functions the snippets reach through the global [Object]
    ([Object.defineProperty], [Object.getOwnPropertyNames],
    [Object.getPrototypeOf], [Object.getOwnPropertyDescriptor]) are taken
    to be the original ones. [_1.hasOwnProperty(_2)] is a method call: the
    property "hasOwnProperty" is looked up from [_1], and what is found is
    called with [_1] as receiver; a value that cannot be called is a
    TypeError. Snippets are not strict code: a write that is refused is
    silently skipped. *)
Definition run_snippet (s : Snippet) (args : list JSValueRef) : M (Completion JSValue) :=
  let _1 := placeholder 0 args in
  let _2 := placeholder 1 args in
  let _3 := placeholder 2 args in
  let _4 := placeholder 3 args in
  match s with
  | SnippetSet =>
      with_object _1 (fun o =>
        let* c := JSSet stack_limit o (ToPropertyKey _2) _3 in
        match c with
        | Throw e => ret (Throw e)
        | Normal _ => ret (Normal (JSBoolean (loose_equal _3 _3)))
        end)
  | SnippetGet =>
      with_object _1 (fun o => JSGet o (ToPropertyKey _2))
  | SnippetIn =>
      with_object _1 (fun o w =>
        Returned (Normal (JSBoolean (JSHas o (ToPropertyKey _2) w))) w)
  | SnippetDelete =>
      with_object _1 (fun o w =>
        let '(b, w') := JSDelete o (ToPropertyKey _2) w in
        Returned (Normal (JSBoolean b)) w')
  | SnippetHasOwnProperty =>
      with_object _1 (fun o =>
        let* method := JSGet o (PKString "hasOwnProperty") in
        match method with
        | Throw e => ret (Throw e)
        | Normal (JSObject f) => JSCall f o [_2]
        | Normal _ => ret (Throw TypeError)
        end)
  | SnippetAssign =>
      with_object _1 (fun o =>
        let* c := JSSet stack_limit o (ToPropertyKey _2) _3 in
        match c with
        | Throw e => ret (Throw e)
        | Normal _ => ret (Normal JSUndefined)
        end)
  | SnippetGetOwnPropertyNames =>
      with_object _1 (fun o w =>
        match heap w !! o with
        | Some obj =>
            let '(r, w') := make_array (own_property_names obj) w in
            Returned (Normal (JSObject r)) w'
        | None => Returned (Throw TypeError) w
        end)
  | SnippetGetPrototypeOf =>
      with_object _1 (fun o w =>
        match heap w !! o with
        | Some obj => Returned (Normal (proto obj)) w
        | None => Returned (Throw TypeError) w
        end)
  | SnippetDefineAccessor =>
      with_object _1 (fun o =>
        let k := ToPropertyKey _2 in
        let* _ := (fun w => Returned tt (snd (JSDelete o k w))) in
        if negb (JSValueToBoolean (Some _4)) then
          let* f := (fun w =>
                       let '(r, w') := JSObjectMake (Some (CallReplaceSetter (Some _2))) w in
                       Returned r w') in
          defineProperty o k (Some _3) (Some (JSObject f))
        else if negb (JSValueToBoolean (Some _3)) then
          defineProperty o k None (Some _4)
        else
          defineProperty o k (Some _3) (Some _4))
  | SnippetHasOwnDescriptor =>
      with_object _1 (fun o w =>
        Returned (Normal (JSBoolean (bool_decide
                    (is_Some (GetOwnProperty w o (ToPropertyKey _2)))))) w)
  | SnippetPropertyAttributes =>
      with_object _1 (fun o w =>
        match GetOwnProperty w o (ToPropertyKey _2) with
        | Some p => Returned (Normal (JSNumber (attributes_of p))) w
        | None => Returned (Normal (JSNumber 0)) w
        end)
  | SnippetForIn =>
      with_object _1 (fun o w =>
        let keys := for_in_keys (S (size (heap w))) w (JSObject o) [] in
        let '(r, w') := make_array (map JSString keys) w in
        Returned (Normal (JSObject r)) w')
  end.

(** Modelled from the spec: [V82JSC::exec] is not in Object.cpp. It runs
    the snippet as a function body with the arguments in the place of
    [_1], [_2], ..., and hands back the result and, in the exception
    out-parameter, a value the script threw; the result is null then. *)
Definition exec (body : Snippet) (args : list JSValueRef) : M (JSValueRef * JSValueRef) :=
  let* c := run_snippet body args in
  match c with
  | Normal v => ret (Some v, None)
  | Throw e => ret (None, Some e)
  end.

(** Modelled from the spec: [V82JSC::exec] called without the exception
    out-parameter. Whatever the script threw is not handed back. *)
Definition exec4 (body : Snippet) (args : list JSValueRef) : M JSValueRef :=
  let* r := exec body args in ret (fst r).

(** ** The side table of instance records *)

(** Modelled from the spec: [V82JSC::getPrivateInstance] is not in
    Object.cpp. It looks the record of a native object up in the side
    table, and yields null when there is none. *)
Definition getPrivateInstance (obj : JSObjectRef) (w : World) : option InstanceWrap :=
  instances w !! obj.

(** Modelled from the spec: [V82JSC::makePrivateInstance] is not in
    Object.cpp. It enters a new record for the object: no internal fields,
    no private backing store, no template, and an identity hash that is
    not zero. *)
Definition makePrivateInstance (obj : JSObjectRef) : M InstanceWrap :=
  fun w =>
    let wrap := mkInstanceWrap 0 [] None None (Z.of_nat (S obj)) in
    Returned wrap (set_instances (<[obj := wrap]> (instances w)) w).

(** A write through the [InstanceWrap*] of an object. *)
Definition store_instance (obj : JSObjectRef) (wrap : InstanceWrap) : M unit :=
  modify (fun w => set_instances (<[obj := wrap]> (instances w)) w).

(** ** Object.cpp *)

(** The receiver [this] of every method is a host object, given by its
    address. The reference counts of [JSValueProtect] and
    [JSValueUnprotect] and the release of host strings have no effect on
    what the methods return, and are left out. *)

(** [Object::Set(Local<Context>, Local<Value> key, Local<Value> value)]. *)
Definition Set_key (this : JSObjectRef) (key value : Local) : M (Maybe bool) :=
  let args := [Some (JSObject this); key; value] in
  let* r := exec SnippetSet args in
  let '(result, exception) := r in
  let out := mk_maybe (negb (ShouldThow exception))
                      (if negb (ShouldThow exception) then JSValueToBoolean result else false) in
  let* _ := modify (LocalException_leave exception) in
  ret (toMaybe out).

(** [sprintf(ndx, "%d", index)] on a [uint32_t]: the 32 bits are printed as
    a signed integer. *)
Definition ndx (index : Z) : string :=
  decimal (if index <? 2 ^ 31 then index else index - 2 ^ 32).

(** [Object::Set(Local<Context>, uint32_t index, Local<Value> value)]. *)
Definition Set_index (this : JSObjectRef) (index : Z) (value : Local) : M (Maybe bool) :=
  let index_ := ndx index in
  let* exception := JSObjectSetProperty this index_ value in
  let out := mk_maybe true (bool_decide (exception = None)) in
  ret (toMaybe out).

(** [Object::CreateDataProperty], both overloads. *)
Definition CreateDataProperty (this : JSObjectRef) (key value : Local) : M (Maybe bool) :=
  let* _ := assert false in
  ret Nothing.

Definition CreateDataProperty_index (this : JSObjectRef) (index : Z) (value : Local)
  : M (Maybe bool) :=
  let* _ := assert false in
  ret Nothing.

(** [Object::DefineOwnProperty]. *)
Definition DefineOwnProperty (this : JSObjectRef) (key value : Local) (attributes : Z)
  : M (Maybe bool) :=
  let* _ := assert false in
  ret Nothing.

(** [Object::DefineProperty]; the descriptor is a host value here. *)
Definition DefineProperty (this : JSObjectRef) (key : Local) (descriptor : Local)
  : M (Maybe bool) :=
  let* _ := assert false in
  ret Nothing.

(** [Object::Get(Local<Context>, Local<Value> key)]. *)
Definition Get_key (this : JSObjectRef) (key : Local) : M MaybeLocal :=
  let args := [Some (JSObject this); key] in
  let* r := exec SnippetGet args in
  let '(result, exception) := r in
  let* _ := modify (LocalException_leave exception) in
  if negb (ShouldThow exception) then ret result else ret None.

(** [Object::Get(Local<Context>, uint32_t index)]. *)
Definition Get_index (this : JSObjectRef) (index : Z) : M MaybeLocal :=
  let index_ := ndx index in
  let* r := JSObjectGetProperty this index_ in
  let '(prop, exception) := r in
  let* _ := modify (LocalException_leave exception) in
  if negb (ShouldThow exception) then ret prop else ret None.

(** [JSValueToNumber] on the result of the attributes snippet, which is a
    number whenever the snippet returns: the number, and the exception
    out-parameter, which stays null. *)
Definition JSValueToNumber (v : JSValueRef) : Z * JSValueRef :=
  match v with
  | Some (JSNumber n) => (n, None)
  | _ => (0, None)
  end.

(** [Object::GetPropertyAttributes]. *)
Definition GetPropertyAttributes (this : JSObjectRef) (key : Local) : M (Maybe Z) :=
  let args := [Some (JSObject this); key] in
  let* r := exec SnippetPropertyAttributes args in
  let '(result, exception) := r in
  let* value :=
    if negb (ShouldThow exception) then
      let '(n, excp) := JSValueToNumber result in
      let* _ := assert (bool_decide (excp = None)) in
      ret n
    else ret 0 in
  let out := mk_maybe (negb (ShouldThow exception)) value in
  let* _ := modify (LocalException_leave exception) in
  ret (toMaybe out).

(** [Object::GetOwnPropertyDescriptor]. *)
Definition GetOwnPropertyDescriptor (this : JSObjectRef) (key : Local) : M MaybeLocal :=
  let* _ := assert false in
  ret None.

(** [Object::Has(Local<Context>, Local<Value> key)]. *)
Definition Has_key (this : JSObjectRef) (key : Local) : M (Maybe bool) :=
  let args := [Some (JSObject this); key] in
  let* r := exec SnippetIn args in
  let '(result, exception) := r in
  let out := mk_maybe (negb (ShouldThow exception))
                      (if negb (ShouldThow exception) then JSValueToBoolean result else false) in
  let* _ := modify (LocalException_leave exception) in
  ret (toMaybe out).

(** [Object::Delete(Local<Context>, Local<Value> key)]. *)
Definition Delete_key (this : JSObjectRef) (key : Local) : M (Maybe bool) :=
  let args := [Some (JSObject this); key] in
  let* r := exec SnippetDelete args in
  let '(result, exception) := r in
  let out := mk_maybe (negb (ShouldThow exception))
                      (if negb (ShouldThow exception) then JSValueToBoolean result else false) in
  let* _ := modify (LocalException_leave exception) in
  ret (toMaybe out).

(** [Object::Has(Local<Context>, uint32_t index)]. *)
Definition Has_index (this : JSObjectRef) (index : Z) : M (Maybe bool) :=
  let index_ := ndx index in
  let* b := JSObjectHasProperty this index_ in
  let out := mk_maybe true b in
  ret (toMaybe out).

(** [Object::Delete(Local<Context>, uint32_t index)]. *)
Definition Delete_index (this : JSObjectRef) (index : Z) : M (Maybe bool) :=
  let index_ := ndx index in
  let* r := JSObjectDeleteProperty this index_ in
  let '(deleted, exception) := r in
  let out := mk_maybe (bool_decide (exception = None)) deleted in
  ret (toMaybe out).

(** [Object::SetAccessorProperty]. The attributes and the access control
    are not used by the source. *)
Definition SetAccessorProperty (this : JSObjectRef) (name : Local)
  (getter_function setter_function : Local) : M unit :=
  let args := [Some (JSObject this); name; getter_function; setter_function] in
  let* r := exec SnippetDefineAccessor args in
  let '(_, exception) := r in
  modify (LocalException_leave exception).

(** [Object::SetAccessor]. The access control and the attribute are passed
    on to [SetAccessorProperty], which does not use them. *)
Definition SetAccessor (this : JSObjectRef) (name : Local)
  (getter_callback setter_callback : option FnPtr) (data : MaybeLocal) : M (Maybe bool) :=
  let data := match data with None => Undefined | Some _ => data end in
  let wrap := mkAccessorInfo getter_callback setter_callback name data in
  let* accessor_function :=
    (fun w => let '(r, w') := JSObjectMake (Some (CallAccessor wrap)) w in Returned r w') in
  let accessor : Local := Some (JSObject accessor_function) in
  let* _ := modify TryCatch_enter in
  let* _ := SetAccessorProperty this name
              (if non_null getter_callback then accessor else None)
              (if non_null setter_callback then accessor else None) in
  let* w := get_world in
  let caught := TryCatch_HasCaught w in
  let* _ := modify TryCatch_leave in
  if caught then ret Nothing else ret (Just true).

(** [Object::SetNativeDataProperty]. *)
Definition SetNativeDataProperty (this : JSObjectRef) (name : Local)
  (getter_callback setter_callback : option FnPtr) (data : Local) : M (Maybe bool) :=
  SetAccessor this name getter_callback setter_callback data.

(** [Object::HasPrivate]. The snippet is run without the exception
    out-parameter, so the local exception is never filled. *)
Definition HasPrivate (this : JSObjectRef) (key : Local) : M (Maybe bool) :=
  let obj : JSValueRef := Some (JSObject this) in
  let* w := get_world in
  let wrap := getPrivateInstance this w in
  if non_null wrap && non_null (wrap ≫= m_private_properties) then
    let args := [obj; key] in
    let exception : JSValueRef := None in
    let* result := exec4 SnippetHasOwnProperty args in
    if ShouldThow exception then ret Nothing
    else ret (toMaybe (mk_maybe true (JSValueToBoolean result)))
  else ret (toMaybe (mk_maybe true false)).

(** [Object::SetPrivate]. *)
Definition SetPrivate (this : JSObjectRef) (key value : Local) : M (Maybe bool) :=
  let obj : JSValueRef := Some (JSObject this) in
  let* w := get_world in
  let* wrap := match getPrivateInstance this w with
               | Some wrap => ret wrap
               | None => makePrivateInstance this
               end in
  let* wrap :=
    match m_private_properties wrap with
    | Some _ => ret wrap
    | None =>
        let* store := (fun w => let '(r, w') := JSObjectMake None w in Returned r w') in
        let wrap' := mkInstanceWrap (m_num_internal_fields wrap) (m_internal_fields wrap)
                                    (Some store) (m_object_template wrap) (m_hash wrap) in
        let* _ := store_instance this wrap' in
        ret wrap'
    end in
  let args := [obj; key; value] in
  let* r := exec SnippetAssign args in
  let '(_, exception) := r in
  let* _ := modify (LocalException_leave exception) in
  if ShouldThow exception then ret Nothing
  else ret (toMaybe (mk_maybe true true)).

(** [Object::DeletePrivate]. *)
Definition DeletePrivate (this : JSObjectRef) (key : Local) : M (Maybe bool) :=
  let obj : JSValueRef := Some (JSObject this) in
  let* w := get_world in
  let wrap := getPrivateInstance this w in
  if non_null wrap && non_null (wrap ≫= m_private_properties) then
    let args := [obj; key] in
    let* r := exec SnippetDelete args in
    let '(_, exception) := r in
    let* _ := modify (LocalException_leave exception) in
    if ShouldThow exception then ret Nothing
    else ret (toMaybe (mk_maybe true true))
  else ret (toMaybe (mk_maybe true false)).

(** [Object::GetPrivate]. As in [HasPrivate], the local exception is
    never filled. *)
Definition GetPrivate (this : JSObjectRef) (key : Local) : M MaybeLocal :=
  let obj : JSValueRef := Some (JSObject this) in
  let* w := get_world in
  let wrap := getPrivateInstance this w in
  if non_null wrap && non_null (wrap ≫= m_private_properties) then
    let args := [obj; key] in
    let exception : JSValueRef := None in
    let* result := exec4 SnippetGet args in
    if ShouldThow exception then ret None
    else ret result
  else ret Undefined.

(** [Object::GetPropertyNames(Local<Context>)]. *)
Definition GetPropertyNames (this : JSObjectRef) : M MaybeLocal :=
  let args := [Some (JSObject this)] in
  let* r := exec SnippetForIn args in
  let '(result, exception) := r in
  let* _ := modify (LocalException_leave exception) in
  if negb (ShouldThow exception) then ret result else ret None.

(** [Object::GetPropertyNames] with a collection mode and filters. *)
Definition GetPropertyNames_filter (this : JSObjectRef) (mode property_filter index_filter : Z)
  : M MaybeLocal :=
  let* _ := assert false in
  ret None.

(** [Object::GetOwnPropertyNames(Local<Context>)]. *)
Definition GetOwnPropertyNames (this : JSObjectRef) : M MaybeLocal :=
  let args := [Some (JSObject this)] in
  let* r := exec SnippetGetOwnPropertyNames args in
  let '(result, exception) := r in
  let* _ := modify (LocalException_leave exception) in
  if negb (ShouldThow exception) then ret result else ret None.

(** [Object::GetOwnPropertyNames(Local<Context>, PropertyFilter)]. *)
Definition GetOwnPropertyNames_filter (this : JSObjectRef) (filter : Z) : M MaybeLocal :=
  let* _ := assert false in
  ret None.

(** [Object::GetPrototype]. *)
Definition GetPrototype (this : JSObjectRef) : M Local :=
  exec4 SnippetGetPrototypeOf [Some (JSObject this)].

(** [Object::SetPrototype]. *)
Definition SetPrototype (this : JSObjectRef) (prototype : Local) : M (Maybe bool) :=
  let* _ := JSObjectSetPrototype this prototype in
  ret (toMaybe (mk_maybe true true)).

(** The inner loop of [FindInstanceInPrototypeChain]:
    [for (t = ...; t; t = t->m_parent) if (t == tmplimpl) ...]. *)
Fixpoint template_chain_has (t : TemplateImpl) (tmplimpl : TemplateImpl) : bool :=
  match t with
  | mkTemplate a p =>
      if Nat.eqb a (address_of tmplimpl) then true
      else match p with
           | Some t' => template_chain_has t' tmplimpl
           | None => false
           end
  end.

(** The test made on each object of the walk. *)
Definition instance_of (instance_wrap : option InstanceWrap) (tmplimpl : TemplateImpl) : bool :=
  match instance_wrap with
  | Some wrap =>
      match m_object_template wrap with
      | Some object_template =>
          match m_constructor_template object_template with
          | Some t => template_chain_has t tmplimpl
          | None => false
          end
      | None => false
      end
  | None => false
  end.

(** The [while] loop of [Object::FindInstanceInPrototypeChain], run for at
    most [fuel] iterations: [Some] is what the loop returns, an empty
    handle when the walk ends at a value that is not an object; [None]
    means the loop is still running when the fuel is used up. *)
Fixpoint FindInstance_loop (fuel : nat) (tmplimpl : TemplateImpl) (proto : Local)
  : M (option Local) :=
  match fuel with
  | O => ret None
  | S n =>
      match proto with
      | Some (JSObject obj) =>
          let* w := get_world in
          let instance_wrap := getPrivateInstance obj w in
          if instance_of instance_wrap tmplimpl then ret (Some proto)
          else
            let* p := GetPrototype obj in
            FindInstance_loop n tmplimpl p
      | _ => ret (Some None)
      end
  end.

(** [Object::FindInstanceInPrototypeChain]. *)
Definition FindInstanceInPrototypeChain (fuel : nat) (this : JSObjectRef)
  (tmpl : TemplateImpl) : M (option Local) :=
  FindInstance_loop fuel tmpl (Some (JSObject this)).

(** [Object::ObjectProtoToString]. *)
Definition ObjectProtoToString (this : JSObjectRef) : M MaybeLocal :=
  let* _ := assert false in
  ret None.

(** [Object::SetIntegrityLevel]. *)
Definition SetIntegrityLevel (this : JSObjectRef) (level : Z) : M (Maybe bool) :=
  let* _ := assert false in
  ret Nothing.

(** [Object::InternalFieldCount]. *)
Definition InternalFieldCount (this : JSObjectRef) : M Z :=
  let* w := get_world in
  match getPrivateInstance this w with
  | Some wrap => ret (m_num_internal_fields wrap)
  | None =>
      if IsArrayBufferView this w then
        let* _ := modify (GetArrayBufferViewInfo this) in
        ret kInternalFieldCount
      else ret 0
  end.

(** The cell [a[index]] of a C++ array of [length a] cells: there is no
    such cell below 0 or from the length on. *)
Definition array_cell {A : Type} (a : list A) (index : Z) : option A :=
  if index <? 0 then None else a !! Z.to_nat index.

(** [Object::SetInternalField]. The guard bounds [index] from above only;
    the slot is then read (to release the old reference) and written. *)
Definition SetInternalField (this : JSObjectRef) (index : Z) (value : Local) : M unit :=
  let* w := get_world in
  let* wrap :=
    match getPrivateInstance this w with
    | None =>
        if IsArrayBuffer this w then
          let* _ := modify (GetArrayBufferInfo this) in
          let* w' := get_world in
          ret (getPrivateInstance this w')
        else ret None
    | Some wrap => ret (Some wrap)
    end in
  match wrap with
  | Some wrap =>
      if index <? m_num_internal_fields wrap then
        match array_cell (m_internal_fields wrap) index with
        | None => fun _ => UndefinedBehavior
        | Some _ =>
            store_instance this
              (mkInstanceWrap (m_num_internal_fields wrap)
                              (<[Z.to_nat index := value]> (m_internal_fields wrap))
                              (m_private_properties wrap) (m_object_template wrap)
                              (m_hash wrap))
        end
      else ret tt
  | None => ret tt
  end.

(** [Object::HasOwnProperty], both overloads. *)
Definition HasOwnProperty (this : JSObjectRef) (key : Local) : M (Maybe bool) :=
  let* _ := assert false in
  ret Nothing.

Definition HasOwnProperty_index (this : JSObjectRef) (index : Z) : M (Maybe bool) :=
  let* _ := assert false in
  ret Nothing.

(** [Object::HasRealNamedProperty]. *)
Definition HasRealNamedProperty (this : JSObjectRef) (key : Local) : M (Maybe bool) :=
  let args := [Some (JSObject this); key] in
  let* r := exec SnippetHasOwnDescriptor args in
  let '(has, exception) := r in
  let* _ := modify (LocalException_leave exception) in
  if ShouldThow exception then ret Nothing
  else ret (toMaybe (mk_maybe true (JSValueToBoolean has))).

(** [Object::HasRealIndexedProperty]: the index goes in as a number. *)
Definition HasRealIndexedProperty (this : JSObjectRef) (index : Z) : M (Maybe bool) :=
  HasRealNamedProperty this (Some (JSNumber index)).

(** [Object::HasRealNamedCallbackProperty]. *)
Definition HasRealNamedCallbackProperty (this : JSObjectRef) (key : Local) : M (Maybe bool) :=
  let* _ := assert false in
  ret Nothing.

(** [Object::GetRealNamedPropertyInPrototypeChain]. *)
Definition GetRealNamedPropertyInPrototypeChain (this : JSObjectRef) (key : Local)
  : M MaybeLocal :=
  let* _ := assert false in
  ret None.

(** [Object::GetRealNamedPropertyAttributesInPrototypeChain]. *)
Definition GetRealNamedPropertyAttributesInPrototypeChain (this : JSObjectRef) (key : Local)
  : M (Maybe Z) :=
  let* _ := assert false in
  ret Nothing.

(** [Object::GetRealNamedProperty]. *)
Definition GetRealNamedProperty (this : JSObjectRef) (key : Local) : M MaybeLocal :=
  let* _ := assert false in
  ret None.

(** [Object::GetRealNamedPropertyAttributes]. *)
Definition GetRealNamedPropertyAttributes (this : JSObjectRef) (key : Local) : M (Maybe Z) :=
  let* _ := assert false in
  ret Nothing.

(** [Object::GetIdentityHash]. *)
Definition GetIdentityHash (this : JSObjectRef) : M Z :=
  let* w := get_world in
  let* wrap := match getPrivateInstance this w with
               | Some wrap => ret wrap
               | None => makePrivateInstance this
               end in
  ret (m_hash wrap).

(** [Object::New]. *)
Definition New : M Local :=
  fun w => let '(r, w') := JSObjectMake None w in Returned (Some (JSObject r)) w'.

(** [Object::SlowGetInternalField]. *)
Definition SlowGetInternalField (this : JSObjectRef) (index : Z) : M Local :=
  let* w := get_world in
  match getPrivateInstance this w with
  | Some wrap =>
      if index <? m_num_internal_fields wrap then
        match array_cell (m_internal_fields wrap) index with
        | None => fun _ => UndefinedBehavior
        | Some (Some v) => ret (Some v)
        | Some None => ret Undefined
        end
      else ret None
  | None => ret None
  end.

End Bridge.

(** ** Vocabulary of the statements *)

(** What a call returned, and the world it left. *)
Definition returned {A : Type} (o : Outcome A) : option A :=
  match o with
  | Returned a _ => Some a
  | _ => None
  end.

Definition aborts {A : Type} (o : Outcome A) : bool :=
  match o with
  | Aborted => true
  | _ => false
  end.

(** A write of [k] on [o] meets no setter and no read-only property on
    the prototype chain, and [o] has the property already or can take a
    new one. *)
Definition accepts_write (w : World) (o : JSObjectRef) (k : PropertyKey) : bool :=
  match heap w !! o with
  | None => false
  | Some obj =>
      match find_property w o k with
      | Some (DataProperty _ true _ _) | None =>
          match props obj !! k with
          | Some _ => true
          | None => extensible obj
          end
      | _ => false
      end
  end.

(** [o] can take a fresh definition of [k] once the old one is deleted:
    it is extensible, and has no property [k] that cannot be deleted. *)
Definition accepts_definition (w : World) (o : JSObjectRef) (k : PropertyKey) : bool :=
  match heap w !! o with
  | None => false
  | Some obj =>
      extensible obj &&
      match props obj !! k with
      | Some p => is_configurable p
      | None => true
      end
  end.



(** The slot array of a record has as many cells as the record says. *)
Definition fields_allocated (wrap : InstanceWrap) : Prop :=
  Z.of_nat (List.length (m_internal_fields wrap)) = m_num_internal_fields wrap.

(** What [Object::GetPrototype] yields for the object at [o]. *)
Definition prototype_of (w : World) (o : JSObjectRef) : Local :=
  match heap w !! o with
  | Some obj => Some (proto obj)
  | None => None
  end.

(** The objects on the prototype chain from [v] on, when the chain reaches
    a value that is not an object within [n] steps. *)
Fixpoint prototype_chain (n : nat) (w : World) (v : Local) : option (list JSObjectRef) :=
  match v with
  | Some (JSObject o) =>
      match n with
      | O => None
      | S n' => cons o <$> prototype_chain n' w (prototype_of w o)
      end
  | _ => Some []
  end.

(** The elements of the array at [a], read through its length. *)
Definition array_elements (w : World) (a : Local) : list JSValue :=
  match a with
  | Some (JSObject r) =>
      match heap w !! r with
      | Some obj =>
          match props obj !! PKString "length" with
          | Some (DataProperty (JSNumber n) _ _ _) =>
              omap (fun i => match props obj !! PKString (decimal (Z.of_nat i)) with
                             | Some (DataProperty v _ _ _) => Some v
                             | _ => None
                             end)
                   (seq 0 (Z.to_nat n))
          | _ => []
          end
      | None => []
      end
  | _ => []
  end.

(** The world a program leaves, when it returns. *)
Definition world_after {A : Type} (m : M A) (w : World) : World :=
  match m w with
  | Returned _ w' => w'
  | _ => w
  end.

(** A template and the templates it inherits from, nearest first. *)
Fixpoint template_lineage (t : TemplateImpl) : list TemplateImpl :=
  match t with
  | mkTemplate a p =>
      mkTemplate a p :: match p with
                        | Some t' => template_lineage t'
                        | None => []
                        end
  end.

(** The templates an object is made from, read off its record: the
    constructor template of its object template and all the templates
    that one inherits from; none without a record or without a template. *)
Definition templates_of (instance_wrap : option InstanceWrap) : list TemplateImpl :=
  match instance_wrap with
  | Some wrap =>
      match m_object_template wrap with
      | Some object_template =>
          match m_constructor_template object_template with
          | Some t => template_lineage t
          | None => []
          end
      | None => []
      end
  | None => []
  end.

(** The object at [o] is made from the template [tmplimpl]: one of the
    templates of [o] is that template, templates being told apart by
    their addresses. *)
Definition made_from (w : World) (tmplimpl : TemplateImpl) (o : JSObjectRef) : bool :=
  existsb (fun t => Nat.eqb (address_of t) (address_of tmplimpl))
          (templates_of (getPrivateInstance o w)).

(** The first object of a prototype chain that is made from the template,
    as a handle; the empty handle when there is none. *)
Definition first_instance (w : World) (tmplimpl : TemplateImpl) (chain : list JSObjectRef)
  : Local :=
  match List.find (made_from w tmplimpl) chain with
  | Some o => Some (JSObject o)
  | None => None
  end.

(** The write of [k] on [o] is decided by [o] alone: [k] is a writable
    data property of [o], or [o] has no property [k], is extensible and
    has the null prototype. *)
Definition writes_own_data (w : World) (o : JSObjectRef) (k : PropertyKey) : bool :=
  match heap w !! o with
  | None => false
  | Some obj =>
      match props obj !! k with
      | Some (DataProperty _ writable _ _) => writable
      | Some (AccessorProperty _ _ _ _) => false
      | None => extensible obj && bool_decide (proto obj = JSNull)
      end
  end.

(** What the callback raised, read after it returned: the exception of
    the catch scope, or else the content of the scheduled-exception cell. *)
Definition exception_raised (w : World) : option JSValue :=
  if TryCatch_HasCaught w then TryCatch_Exception w else scheduled_exception_ (isolate w).

(** The object is an ordinary object of the host, as far as a world
    tells: it is no Array (an Array has an own "length" that is not
    configurable, and keeps it), and the embedder does not know it as a
    view of an array buffer. On an Array and on a typed array the host
    treats a write of "length" or of an index in its own way, which
    [JSSet] does not describe. *)
Definition ordinary `{Embedder} (w : World) (o : JSObjectRef) : bool :=
  match GetOwnProperty w o (PKString "length") with
  | Some p => is_configurable p
  | None => true
  end
  && negb (IsArrayBufferView o w).

(** The exceptions in flight after the accessor invocation handler has
    returned: the one in the exception out-parameter and the one in the
    scheduled-exception cell. *)
Definition exceptions_in_flight (exception : JSValueRef) (w : World) : nat :=
  ((if non_null exception then 1 else 0)
   + (if non_null (scheduled_exception_ (isolate w)) then 1 else 0))%nat.

(** The exceptions a callback has left when it returns: the one its catch
    scope has caught and the one in the scheduled-exception cell. *)
Definition exceptions_left (w : World) : nat :=
  ((if TryCatch_HasCaught w then 1 else 0)
   + (if non_null (scheduled_exception_ (isolate w)) then 1 else 0))%nat.

(** The operations the specification lists as not ported. *)
Inductive UnportedOperation : Type :=
  | OpCreateDataProperty
  | OpCreateDataProperty_index
  | OpDefineOwnProperty
  | OpDefineProperty
  | OpGetOwnPropertyDescriptor
  | OpHasOwnProperty
  | OpHasOwnProperty_index
  | OpObjectProtoToString
  | OpSetIntegrityLevel
  | OpHasRealNamedProperty
  | OpHasRealIndexedProperty
  | OpHasRealNamedCallbackProperty
  | OpGetRealNamedProperty
  | OpGetRealNamedPropertyInPrototypeChain
  | OpGetRealNamedPropertyAttributes
  | OpGetRealNamedPropertyAttributesInPrototypeChain.

Section Unported.

Context {embedder : Embedder}.

(** Whether invoking the operation on [this] aborts; each operation takes
    what it needs of the key, the value and the number. *)
Definition invoke_aborts (op : UnportedOperation) (this : JSObjectRef)
  (key value : Local) (n : Z) (w : World) : bool :=
  match op with
  | OpCreateDataProperty => aborts (CreateDataProperty this key value w)
  | OpCreateDataProperty_index => aborts (CreateDataProperty_index this n value w)
  | OpDefineOwnProperty => aborts (DefineOwnProperty this key value n w)
  | OpDefineProperty => aborts (DefineProperty this key value w)
  | OpGetOwnPropertyDescriptor => aborts (GetOwnPropertyDescriptor this key w)
  | OpHasOwnProperty => aborts (HasOwnProperty this key w)
  | OpHasOwnProperty_index => aborts (HasOwnProperty_index this n w)
  | OpObjectProtoToString => aborts (ObjectProtoToString this w)
  | OpSetIntegrityLevel => aborts (SetIntegrityLevel this n w)
  | OpHasRealNamedProperty => aborts (HasRealNamedProperty this key w)
  | OpHasRealIndexedProperty => aborts (HasRealIndexedProperty this n w)
  | OpHasRealNamedCallbackProperty => aborts (HasRealNamedCallbackProperty this key w)
  | OpGetRealNamedProperty => aborts (GetRealNamedProperty this key w)
  | OpGetRealNamedPropertyInPrototypeChain =>
      aborts (GetRealNamedPropertyInPrototypeChain this key w)
  | OpGetRealNamedPropertyAttributes => aborts (GetRealNamedPropertyAttributes this key w)
  | OpGetRealNamedPropertyAttributesInPrototypeChain =>
      aborts (GetRealNamedPropertyAttributesInPrototypeChain this key w)
  end.

End Unported.

(** ** Example worlds *)

(** An embedder with three callbacks: the getter at address 1 produces 7,
    the setter at address 2 does nothing, the setter at address 3
    schedules the exception "boom". There are no array buffers. *)
Definition example_embedder : Embedder :=
  mkEmbedder
    (fun g name info w => (w, Some (JSNumber 7)))
    (fun s name value info w =>
       if Nat.eqb s 3 then set_scheduled_exception (Some (JSString "boom")) w else w)
    64%nat
    (fun _ _ => false) (fun _ _ => false)
    (fun _ w => w) (fun _ w => w)
    2.

Definition empty_world : World :=
  mkWorld ∅ JSNull ∅ (mkIsolate None []).

(** The world after [Object::New] in the empty world: one object, at
    address 0. *)
Definition one_object : World := snd (JSObjectMake None empty_world).

(** The object at 0 with an accessor "x" that has the setter callback 2
    and no getter callback. *)
Definition setter_only_world : World :=
  world_after (SetAccessor (embedder := example_embedder)
                 0%nat (Some (JSString "x")) None (Some 2%nat) None) one_object.


(** The object at 0 with an accessor "0" whose setter callback 3 schedules
    an exception. *)
Definition throwing_setter_world : World :=
  world_after (SetAccessor (embedder := example_embedder)
                 0%nat (Some (JSString "0")) None (Some 3%nat) None) one_object.

(** The payload of an accessor function with the getter callback 1. *)
Definition getter_info : AccessorInfo :=
  mkAccessorInfo (Some 1%nat) None (Some (JSString "x")) (Some JSUndefined).

(** The object at 0, with the exception "pending" scheduled. *)
Definition pending_world : World :=
  set_scheduled_exception (Some (JSString "pending")) one_object.

(** The object at 0 with a record of one internal field, not yet set. *)
Definition one_field_record : InstanceWrap := mkInstanceWrap 1 [None] None None 1.

Definition one_field_world : World :=
  set_instances (<[0%nat := one_field_record]> ∅) one_object.

(** Two templates, the second inheriting from the first, and a world of
    three objects: 0 has the prototype 1, 1 has the prototype 2, 2 has the
    null prototype; 1 is an instance of the second template, 2 of the
    first. *)
Definition base_template : TemplateImpl := mkTemplate 10%nat None.

Definition derived_template : TemplateImpl := mkTemplate 11%nat (Some base_template).

Definition chain_world : World :=
  mkWorld
    (<[0%nat := mkObject ∅ (JSObject 1%nat) true None]>
       (<[1%nat := mkObject ∅ (JSObject 2%nat) true None]>
          (<[2%nat := mkObject ∅ JSNull true None]> ∅)))
    JSNull
    (<[1%nat := mkInstanceWrap 0 [] None
                  (Some (mkObjectTemplate (Some derived_template))) 2]>
       (<[2%nat := mkInstanceWrap 0 [] None
                     (Some (mkObjectTemplate (Some base_template))) 3]> ∅))
    (mkIsolate None []).

(** The object at 0 with a read-only data property "r" of value 0. *)
Definition read_only_world : World :=
  put_property 0%nat (PKString "r") (DataProperty (JSNumber 0) false true true) one_object.

(** Modelled from the spec: [GetArrayBufferInfo] is not in Object.cpp. In
    this embedder the object at 0 is an ArrayBuffer, and
    [GetArrayBufferInfo] enters, for an object without a record, a record
    with the default number of internal fields, as the side table is
    populated on demand from that default. *)
Definition buffer_embedder : Embedder :=
  mkEmbedder
    (fun g name info w => (w, None))
    (fun s name value info w => w)
    64%nat
    (fun o _ => Nat.eqb o 0) (fun _ _ => false)
    (fun o w =>
       match getPrivateInstance o w with
       | Some _ => w
       | None => set_instances (<[o := mkInstanceWrap 2 [None; None] None None 1]> (instances w)) w
       end)
    (fun _ w => w)
    2.

(** ** Object.cpp: the constructor name *)

Section ConstructorName.

Context {embedder : Embedder}.

(** The conversion [ValueImpl::New(...)->ToString(context).ToLocalChecked()]
    of the value layer, which is not in Object.cpp. *)
Variable ToString : JSValueRef -> M Local.

(** [JSValueIsObject]. *)
Definition JSValueIsObject (v : JSValueRef) : bool :=
  match v with
  | Some (JSObject _) => true
  | _ => false
  end.

(** [Object::GetConstructorName]. *)
Definition GetConstructorName (this : JSObjectRef) : M Local :=
  let* r := JSObjectGetProperty this "constructor" in
  let '(vctor, excp) := r in
  let* _ := assert (bool_decide (excp = None)) in
  if JSValueIsObject vctor then
    match vctor with
    | Some (JSObject ctor) =>
        let* r := JSObjectGetProperty ctor "name" in
        let '(vname, excp) := r in
        let* _ := assert (bool_decide (excp = None)) in
        ToString vname
    | _ => ret None
    end
  else ret None.

End ConstructorName.

(** ** Further vocabulary *)

(** The number [sprintf("%d")] prints for the 32 bits of an index. *)
Definition as_int32 (index : Z) : Z :=
  if index <? 2 ^ 31 then index else index - 2 ^ 32.

Definition is_enumerable (p : Property) : bool :=
  match p with
  | DataProperty _ _ e _ => e
  | AccessorProperty _ _ e _ => e
  end.


(** What [delete] answers for the own property it finds: a property that
    is not configurable stays. *)
Definition deletable (p : option Property) : bool :=
  match p with
  | Some p => is_configurable p
  | None => true
  end.

(** The record has a private backing store. *)
Definition has_store (this : JSObjectRef) (w : World) : bool :=
  non_null (getPrivateInstance this w)
  && non_null (getPrivateInstance this w ≫= m_private_properties).

(** The world [SetPrivate] writes in: the record of the object is there,
    with a backing store. *)
Definition with_store (this : JSObjectRef) (w : World) : World :=
  let wrap := default (mkInstanceWrap 0 [] None None (Z.of_nat (S this)))
                      (getPrivateInstance this w) in
  match getPrivateInstance this w ≫= m_private_properties with
  | Some _ => w
  | None =>
      let store := fresh (dom (heap w)) in
      mkWorld (<[store := mkObject ∅ (object_prototype w) true None]> (heap w))
              (object_prototype w)
              (<[this := mkInstanceWrap (m_num_internal_fields wrap) (m_internal_fields wrap)
                                        (Some store) (m_object_template wrap) (m_hash wrap)]>
                 (instances w))
              (isolate w)
  end.

(** The lookup of "hasOwnProperty" from [o] ends at a data property that
    holds the built-in function of that name, as it does on every object
    that inherits from the object prototype of a fresh context and does
    not hide the method. *)
Definition finds_hasOwnProperty (w : World) (o : JSObjectRef) : bool :=
  match find_property w o (PKString "hasOwnProperty") with
  | Some (DataProperty (JSObject f) _ _ _) =>
      match heap w !! f ≫= call with
      | Some CallHasOwnProperty => true
      | _ => false
      end
  | _ => false
  end.

(** A world keeps the lookups of [k] of another when every object of that
    one is still there, with its prototype, its call behaviour and its own
    property [k]. *)
Definition keeps_lookup (k : PropertyKey) (w w' : World) : Prop :=
  forall o obj, heap w !! o = Some obj ->
    exists obj', heap w' !! o = Some obj'
                 /\ proto obj' = proto obj /\ call obj' = call obj
                 /\ props obj' !! k = props obj !! k.




(** ** Further example worlds *)

(** The object at 0 with the data property "a" of value 1. *)
Definition plain_object : JSObjectData :=
  mkObject (<[PKString "a" := DataProperty (JSNumber 1) true true true]> ∅) JSNull true None.

Definition plain_world : World :=
  mkWorld (<[0%nat := plain_object]> ∅) JSNull ∅ (mkIsolate None []).

(** The object at 0 with a data property "f" that is not configurable. *)
Definition fixed_object : JSObjectData :=
  mkObject (<[PKString "f" := DataProperty (JSNumber 1) true true false]> ∅) JSNull true None.

Definition fixed_world : World :=
  mkWorld (<[0%nat := fixed_object]> ∅) JSNull ∅ (mkIsolate None []).

(** The same, with a record that has a private backing store. *)
Definition fixed_store_world : World := with_store 0%nat fixed_world.

(** The object at 0 with a record of two internal fields, not yet set. *)
Definition two_field_record : InstanceWrap := mkInstanceWrap 2 [None; None] None None 1.

Definition two_field_world : World :=
  set_instances (<[0%nat := two_field_record]> ∅) one_object.

(** The three objects of [chain_world], the last with a data property "p". *)
Definition inherit_world : World :=
  put_property 2%nat (PKString "p") (DataProperty (JSNumber 9) true true true) chain_world.

(** A context as the host makes it, with one object of the embedder: 0 is
    the object prototype, whose method "hasOwnProperty" is the built-in
    function at 1; the object at 2 inherits from the object prototype and
    has the data property "secret" of value 1. *)
Definition standard_world : World :=
  mkWorld
    (<[0%nat := mkObject (<[PKString "hasOwnProperty"
                             := DataProperty (JSObject 1%nat) true false true]> ∅)
                         JSNull true None]>
       (<[1%nat := mkObject ∅ (JSObject 0%nat) true (Some CallHasOwnProperty)]>
          (<[2%nat := mkObject (<[PKString "secret"
                                   := DataProperty (JSNumber 1) true true true]> ∅)
                               (JSObject 0%nat) true None]> ∅)))
    (JSObject 0%nat) ∅ (mkIsolate None []).

(** The same, with a record of the object at 2 that has a private backing
    store. *)
Definition standard_store_world : World := with_store 2%nat standard_world.

(** Two objects without a prototype: 0 is empty, 1 has the data property
    "p" of value 9. *)
Definition two_objects_world : World :=
  mkWorld
    (<[0%nat := mkObject ∅ JSNull true None]>
       (<[1%nat := mkObject (<[PKString "p" := DataProperty (JSNumber 9) true true true]> ∅)
                            JSNull true None]> ∅))
    JSNull ∅ (mkIsolate None []).

(** The object at 0 of [plain_world], not extensible any more. *)
Definition sealed_world : World :=
  update_object 0%nat (fun o => mkObject (props o) (proto o) false (call o)) plain_world.

(** An embedder whose getter callbacks schedule the exception "boom" and
    leave the return value the hole. *)
Definition raising_embedder : Embedder :=
  mkEmbedder
    (fun g name info w => (set_scheduled_exception (Some (JSString "boom")) w, None))
    (fun s name value info w => w)
    64%nat
    (fun _ _ => false) (fun _ _ => false)
    (fun _ w => w) (fun _ w => w)
    2.

(** An embedder whose getter callbacks raise twice: "thrown" reaches the
    innermost catch scope, and "scheduled" is left in the
    scheduled-exception cell. *)
Definition twice_raising_embedder : Embedder :=
  mkEmbedder
    (fun g name info w =>
       (set_scheduled_exception (Some (JSString "scheduled"))
          (LocalException_leave (Some (JSString "thrown")) w), None))
    (fun s name value info w => w)
    64%nat
    (fun _ _ => false) (fun _ _ => false)
    (fun _ w => w) (fun _ w => w)
    2.

(** The object at 0 with an accessor "constructor" that has the getter
    callback 1. *)
Definition constructor_getter_world : World :=
  world_after (SetAccessor (embedder := raising_embedder)
                 0%nat (Some (JSString "constructor")) (Some 1%nat) None None) one_object.

(** Two objects: 0 has the data property "constructor" that holds the
    object 1, which has the data property "name" of value "Point". *)
Definition named_constructor_world : World :=
  mkWorld
    (<[0%nat := mkObject (<[PKString "constructor"
                             := DataProperty (JSObject 1%nat) true false true]> ∅)
                         JSNull true None]>
       (<[1%nat := mkObject (<[PKString "name"
                                := DataProperty (JSString "Point") false false true]> ∅)
                            JSNull true None]> ∅))
    JSNull ∅ (mkIsolate None []).


(** ** Properties *)

Section Properties.

Context {embedder : Embedder}.

(** *** Prototype change *)

(** C10. For every object and every prototype value, [SetPrototype]
    returns success with the value true: it has no failure path. It leaves
    the exception state of the isolate as it was, so it never reports a
    rejection by the host. *)
Theorem SetPrototype_always_succeeds (this : JSObjectRef) (prototype : Local) (w : World) :
  exists w', SetPrototype this prototype w = Returned (Just true) w'
             /\ isolate w' = isolate w.
Proof.
  unfold SetPrototype, JSObjectSetPrototype, bind, ret.
  destruct (heap w !! this) as [o|];
    [destruct (negb (extensible o)); [|destruct (chain_reaches _ _ _ _)]|];
    eexists; split; reflexivity.
Qed.

(** *** Private properties without a backing store *)

Lemma no_store_guard (this : JSObjectRef) (w : World) :
  getPrivateInstance this w ≫= m_private_properties = None ->
  non_null (getPrivateInstance this w)
  && non_null (getPrivateInstance this w ≫= m_private_properties) = false.
Proof. intros ->. apply andb_false_r. Qed.

(** C7. When the object has no private backing store (no record, or a
    record whose store is null), [HasPrivate] returns false, [GetPrivate]
    returns the undefined value and [DeletePrivate] returns false. None of
    them reports an error: each returns a present result and leaves the
    world, with the exception state of the isolate, unchanged. *)
Theorem private_operations_without_store (this : JSObjectRef) (key : Local) (w : World) :
  getPrivateInstance this w ≫= m_private_properties = None ->
  HasPrivate this key w = Returned (Just false) w
  /\ GetPrivate this key w = Returned Undefined w
  /\ DeletePrivate this key w = Returned (Just false) w.
Proof.
  intros H. apply no_store_guard in H.
  unfold HasPrivate, GetPrivate, DeletePrivate, bind, get_world.
  rewrite H. repeat split.
Qed.

(** *** Operations that are not ported *)

(** C3, as the code has it. Of the operations the specification lists as
    not ported, all abort when invoked except [HasRealNamedProperty] and
    [HasRealIndexedProperty]: these two are implemented, and never abort. *)
Theorem unported_operations_abort (op : UnportedOperation) (this : JSObjectRef)
  (key value : Local) (n : Z) (w : World) :
  invoke_aborts op this key value n w =
  match op with
  | OpHasRealNamedProperty | OpHasRealIndexedProperty => false
  | _ => true
  end.
Proof.
  destruct op; try reflexivity.
  - unfold invoke_aborts, HasRealNamedProperty, exec, run_snippet, with_object, bind. cbn.
    destruct (heap w !! this); reflexivity.
  - unfold invoke_aborts, HasRealIndexedProperty, HasRealNamedProperty, exec,
      run_snippet, with_object, bind. cbn.
    destruct (heap w !! this); reflexivity.
Qed.


(** *** Exceptions of the host in the indexed and the named write *)

(** C1, at the point where the code departs from it. Whenever the host
    raises an exception during [Set(o, i, v)], the call returns a present
    boolean, [Just false], and not [Nothing]: the success flag is set to
    true whatever happened. The exception is not passed on to the isolate
    either: the world is the one the host left. *)
Theorem Set_index_exception_gives_Just_false (this : JSObjectRef) (index : Z)
  (value : Local) (w : World) (e : JSValue) (w' : World) :
  JSObjectSetProperty this (ndx index) value w = Returned (Some e) w' ->
  Set_index this index value w = Returned (Just false) w'.
Proof.
  intros H. unfold Set_index, bind. rewrite H. reflexivity.
Qed.

(** The named write does what the indexed one misses: an exception of
    the host clears the success flag, and is passed on to the isolate. *)
Lemma Set_key_exception_gives_Nothing (this : JSObjectRef) (key value : Local)
  (w : World) (result : JSValueRef) (e : JSValue) (w' : World) :
  exec SnippetSet [Some (JSObject this); key; value] w = Returned (result, Some e) w' ->
  Set_key this key value w = Returned Nothing (LocalException_leave (Some e) w').
Proof.
  intros H. unfold Set_key, bind. rewrite H. reflexivity.
Qed.

(** So do the other operations of the property access bridge: each hands
    back an empty result when the host or the script raised an exception,
    and passes the exception on to the isolate. *)
Lemma Get_key_exception_gives_empty (this : nat) (key : option JSValue)
  (w : World) (result : option JSValue) (e : JSValue) (w' : World) :
  exec SnippetGet [Some (JSObject this); key] w = Returned (result, Some e) w' ->
  Get_key this key w = Returned None (LocalException_leave (Some e) w').
Proof. intros H. unfold Get_key, bind. rewrite H. reflexivity. Qed.

Lemma Has_key_exception_gives_Nothing (this : nat) (key : option JSValue)
  (w : World) (result : option JSValue) (e : JSValue) (w' : World) :
  exec SnippetIn [Some (JSObject this); key] w = Returned (result, Some e) w' ->
  Has_key this key w = Returned Nothing (LocalException_leave (Some e) w').
Proof. intros H. unfold Has_key, bind. rewrite H. reflexivity. Qed.

Lemma Delete_key_exception_gives_Nothing (this : nat) (key : option JSValue)
  (w : World) (result : option JSValue) (e : JSValue) (w' : World) :
  exec SnippetDelete [Some (JSObject this); key] w = Returned (result, Some e) w' ->
  Delete_key this key w = Returned Nothing (LocalException_leave (Some e) w').
Proof. intros H. unfold Delete_key, bind. rewrite H. reflexivity. Qed.

Lemma Get_index_exception_gives_empty (this : nat) (index : Z)
  (w : World) (prop : option JSValue) (e : JSValue) (w' : World) :
  JSObjectGetProperty this (ndx index) w = Returned (prop, Some e) w' ->
  Get_index this index w = Returned None (LocalException_leave (Some e) w').
Proof. intros H. unfold Get_index, bind. rewrite H. reflexivity. Qed.

Lemma GetPropertyAttributes_exception_gives_Nothing (this : nat) (key : option JSValue)
  (w : World) (result : option JSValue) (e : JSValue) (w' : World) :
  exec SnippetPropertyAttributes [Some (JSObject this); key] w = Returned (result, Some e) w' ->
  GetPropertyAttributes this key w = Returned Nothing (LocalException_leave (Some e) w').
Proof. intros H. unfold GetPropertyAttributes, bind. rewrite H. reflexivity. Qed.

Lemma GetOwnPropertyNames_exception_gives_empty (this : nat)
  (w : World) (result : option JSValue) (e : JSValue) (w' : World) :
  exec SnippetGetOwnPropertyNames [Some (JSObject this)] w = Returned (result, Some e) w' ->
  GetOwnPropertyNames this w = Returned None (LocalException_leave (Some e) w').
Proof. intros H. unfold GetOwnPropertyNames, bind. rewrite H. reflexivity. Qed.

Lemma GetPropertyNames_exception_gives_empty (this : nat)
  (w : World) (result : option JSValue) (e : JSValue) (w' : World) :
  exec SnippetForIn [Some (JSObject this)] w = Returned (result, Some e) w' ->
  GetPropertyNames this w = Returned None (LocalException_leave (Some e) w').
Proof. intros H. unfold GetPropertyNames, bind. rewrite H. reflexivity. Qed.

(** The indexed deletion sets the success flag from the exception
    out-parameter of the host. *)
Lemma Delete_index_flag (this : nat) (index : Z) (w : World)
  (deleted : bool) (exception : option JSValue) (w' : World) :
  JSObjectDeleteProperty this (ndx index) w = Returned (deleted, exception) w' ->
  Delete_index this index w
  = Returned (match exception with None => Just deleted | Some _ => Nothing end) w'.
Proof.
  intros H. unfold Delete_index, bind. rewrite H.
  destruct exception; reflexivity.
Qed.

(** *** The scheduled exception across the accessor invocation handler *)

(** The handler starts by emptying the cell: what the cell held before
    the call has no influence on the call. *)
Lemma callback_forgets (wrap : AccessorInfo) (this : JSObjectRef)
  (args : list JSValueRef) (held : JSValueRef) (w : World) :
  callback wrap this args (set_scheduled_exception held w) = callback wrap this args w.
Proof. reflexivity. Qed.

(** When the handler hands no exception to the host, the cell is empty
    after the call. *)
Lemma callback_cell_after (wrap : AccessorInfo) (this : JSObjectRef)
  (args : list JSValueRef) (w : World) (r : JSValueRef * JSValueRef) (w' : World) :
  callback wrap this args w = Returned r w' ->
  snd r = None -> scheduled_exception_ (isolate w') = None.
Proof.
  unfold callback, bind, modify, get_world, ret.
  destruct args as [|a0 rest].
  - destruct (getter wrap) as [g|]; [|discriminate].
    destruct (call_getter _ _ _ _) as [w1 slot].
    unfold TryCatch_HasCaught.
    destruct (TryCatch_Exception w1) as [c|] eqn:Hc.
    + intros [= <- <-]. simpl. discriminate.
    + destruct (scheduled_exception_ (isolate w1)) as [s|] eqn:Hs.
      * intros [= <- <-]. simpl. discriminate.
      * intros [= <- <-] _. simpl. exact Hs.
  - destruct (setter wrap) as [s|]; [|discriminate].
    set (w1 := call_setter _ _ _ _ _).
    unfold TryCatch_HasCaught.
    destruct (TryCatch_Exception w1) as [c|] eqn:Hc.
    + intros [= <- <-]. simpl. discriminate.
    + destruct (scheduled_exception_ (isolate w1)) as [s'|] eqn:Hs.
      * intros [= <- <-]. simpl. discriminate.
      * intros [= <- <-] _. simpl. exact Hs.
Qed.

(** The handler in full, for a getter call and for a setter call: the
    callback runs from an empty cell inside a new catch scope; what it
    raised, in the scope or in the cell, goes to the host; the cell is
    emptied unless the scope caught something. *)
Lemma callback_getter_eq (wrap : AccessorInfo) (this : nat) (w : World) (g : nat) :
  getter wrap = Some g ->
  callback wrap this [] w =
  (let frame := mkInfo (Some (JSObject this)) (m_data wrap) (Some (JSObject this)) in
   let called := call_getter g (m_property wrap) frame
                   (TryCatch_enter (set_scheduled_exception None w)) in
   Returned (Some (default JSUndefined (snd called)), exception_raised (fst called))
            (TryCatch_leave (if TryCatch_HasCaught (fst called) then fst called
                             else set_scheduled_exception None (fst called)))).
Proof.
  intros Hg. unfold callback, bind, modify, get_world, ret, exception_raised. rewrite Hg.
  cbv zeta.
  destruct (call_getter _ _ _ _) as [w1 slot]. cbn [fst snd].
  destruct (TryCatch_HasCaught w1); [reflexivity|].
  destruct (scheduled_exception_ (isolate w1)) as [e|] eqn:He; [reflexivity|].
  unfold TryCatch_leave, set_scheduled_exception, set_isolate. cbn. rewrite He. reflexivity.
Qed.

Lemma callback_setter_eq (wrap : AccessorInfo) (this : nat) (w : World) (s : nat)
  (a0 : option JSValue) (rest : list (option JSValue)) :
  setter wrap = Some s ->
  callback wrap this (a0 :: rest) w =
  (let frame := mkInfo (Some (JSObject this)) (m_data wrap) (Some (JSObject this)) in
   let called := call_setter s (m_property wrap) a0 frame
                   (TryCatch_enter (set_scheduled_exception None w)) in
   Returned (Some JSUndefined, exception_raised called)
            (TryCatch_leave (if TryCatch_HasCaught called then called
                             else set_scheduled_exception None called))).
Proof.
  intros Hs. unfold callback, bind, modify, get_world, ret, exception_raised. rewrite Hs.
  cbv zeta.
  set (w1 := call_setter _ _ _ _ _).
  destruct (TryCatch_HasCaught w1); [reflexivity|].
  destruct (scheduled_exception_ (isolate w1)) as [e|] eqn:He; [reflexivity|].
  unfold TryCatch_leave, set_scheduled_exception, set_isolate. cbn. rewrite He. reflexivity.
Qed.

Lemma exceptions_after_callback (called : World) :
  exceptions_in_flight
    (exception_raised called)
    (TryCatch_leave (if TryCatch_HasCaught called then called
                     else set_scheduled_exception None called))
  = exceptions_left called
  /\ scheduled_exception_
       (isolate (TryCatch_leave (if TryCatch_HasCaught called then called
                                 else set_scheduled_exception None called)))
     = (if TryCatch_HasCaught called then scheduled_exception_ (isolate called) else None).
Proof.
  unfold exceptions_in_flight, exceptions_left, exception_raised, TryCatch_HasCaught.
  destruct (TryCatch_Exception called) as [x|]; cbn.
  - split; reflexivity.
  - split; [|reflexivity]. destruct (scheduled_exception_ (isolate called)); reflexivity.
Qed.

(** C5, as the code has it. The accessor invocation handler does not put
    back what the scheduled-exception cell held before the call: it empties
    the cell first, so that the call runs, and ends, exactly as from an
    empty cell, and an exception that was pending is dropped. What the
    handler hands to the host is what the callback raised, in the catch
    scope or else in the cell, on its run from the empty cell inside the
    new catch scope; an exception it takes from the cell it removes from
    the cell. So the cell holds an exception afterwards only when the
    callback both raised in its catch scope and left one in the cell, and
    the exceptions in flight after the call, in the out-parameter and in
    the cell, are as many as the callback left: at most one, whenever the
    callback left at most one. *)
Theorem callback_clears_and_does_not_restore (wrap : AccessorInfo) (this : JSObjectRef)
  (args : list JSValueRef) (held : JSValueRef) (w : World)
  (r : JSValueRef * JSValueRef) (w' : World) :
  callback wrap this args (set_scheduled_exception held w) = Returned r w' ->
  let frame := mkInfo (Some (JSObject this)) (m_data wrap) (Some (JSObject this)) in
  let start := TryCatch_enter (set_scheduled_exception None w) in
  callback wrap this args w = Returned r w'
  /\ (snd r = None -> scheduled_exception_ (isolate w') = None)
  /\ (forall g, args = [] -> getter wrap = Some g ->
       let called := fst (call_getter g (m_property wrap) frame start) in
       snd r = exception_raised called
       /\ scheduled_exception_ (isolate w')
          = (if TryCatch_HasCaught called then scheduled_exception_ (isolate called)
             else None)
       /\ exceptions_in_flight (snd r) w' = exceptions_left called
       /\ ((exceptions_left called <= 1)%nat -> (exceptions_in_flight (snd r) w' <= 1)%nat))
  /\ (forall s a0 rest, args = a0 :: rest -> setter wrap = Some s ->
       let called := call_setter s (m_property wrap) a0 frame start in
       snd r = exception_raised called
       /\ scheduled_exception_ (isolate w')
          = (if TryCatch_HasCaught called then scheduled_exception_ (isolate called)
             else None)
       /\ exceptions_in_flight (snd r) w' = exceptions_left called
       /\ ((exceptions_left called <= 1)%nat -> (exceptions_in_flight (snd r) w' <= 1)%nat)).
Proof.
  intros H frame start. rewrite callback_forgets in H.
  split; [exact H|]. split; [eapply callback_cell_after; eauto|]. split.
  - intros g -> Hg called. rewrite (callback_getter_eq wrap this w g Hg) in H.
    cbv zeta in H. fold frame start called in H. injection H as <- <-. cbn [snd].
    destruct (exceptions_after_callback called) as [Hn Hc].
    split; [reflexivity|]. split; [exact Hc|]. split; [exact Hn|]. rewrite Hn. trivial.
  - intros s a0 rest -> Hs called. rewrite (callback_setter_eq wrap this w s a0 rest Hs) in H.
    cbv zeta in H. fold frame start called in H. injection H as <- <-. cbn [snd].
    destruct (exceptions_after_callback called) as [Hn Hc].
    split; [reflexivity|]. split; [exact Hc|]. split; [exact Hn|]. rewrite Hn. trivial.
Qed.


(** *** Writing, then reading *)

Lemma heap_put_property (o : nat) (k : PropertyKey) (p : Property) (w : World)
  (obj : JSObjectData) :
  heap w !! o = Some obj ->
  heap (put_property o k p w) !! o
  = Some (mkObject (<[k := p]> (props obj)) (proto obj) (extensible obj) (call obj)).
Proof.
  intros H. unfold put_property, update_object. cbn [heap set_heap].
  rewrite lookup_alter_eq, H. reflexivity.
Qed.

Lemma find_property_own (w : World) (o : nat) (k : PropertyKey) (obj : JSObjectData)
  (p : Property) :
  heap w !! o = Some obj -> props obj !! k = Some p -> find_property w o k = Some p.
Proof.
  intros Ho Hk. unfold find_property. cbn [find_property_from]. rewrite Ho, Hk. reflexivity.
Qed.

Lemma find_property_put (o : nat) (k : PropertyKey) (p : Property) (w : World)
  (obj : JSObjectData) :
  heap w !! o = Some obj -> find_property (put_property o k p w) o k = Some p.
Proof.
  intros H. eapply find_property_own.
  - apply heap_put_property, H.
  - cbn [props]. apply lookup_insert_eq.
Qed.

Lemma JSSet_plain (depth : nat) (o : nat) (k : PropertyKey) (v : JSValue) (w : World) :
  match find_property w o k with
  | Some (DataProperty _ true _ _) | None => True
  | _ => False
  end ->
  JSSet depth o k v w
  = Returned (Normal (fst (set_data_property o k v w))) (snd (set_data_property o k v w)).
Proof.
  intros H. destruct depth; cbn [JSSet];
    destruct (find_property w o k) as [[? [] ? ?|]|]; try contradiction;
    destruct (set_data_property o k v w); reflexivity.
Qed.

Lemma accepts_write_set_data (w : World) (o : nat) (k : PropertyKey) (v : JSValue) :
  accepts_write w o k = true ->
  exists obj e c, heap w !! o = Some obj /\
    set_data_property o k v w = (true, put_property o k (DataProperty v true e c) w).
Proof.
  unfold accepts_write, set_data_property.
  destruct (heap w !! o) as [obj|] eqn:Ho; [|discriminate].
  destruct (props obj !! k) as [p|] eqn:Hk.
  - rewrite (find_property_own w o k obj p Ho Hk).
    destruct p as [v0 [] e c|]; try discriminate.
    intros _. exists obj, e, c. split; reflexivity.
  - destruct (find_property w o k) as [[? [] ? ?|]|]; try discriminate;
      destruct (extensible obj); try discriminate;
      intros _; exists obj, true, true; split; reflexivity.
Qed.

Lemma accepts_write_plain (w : World) (o : nat) (k : PropertyKey) :
  accepts_write w o k = true ->
  match find_property w o k with
  | Some (DataProperty _ true _ _) | None => True
  | _ => False
  end.
Proof.
  unfold accepts_write. destruct (heap w !! o); [|discriminate].
  destruct (find_property w o k) as [[? [] ? ?|]|]; try discriminate; trivial.
Qed.


Lemma Get_key_eq (this : nat) (key : JSValue) (w : World) :
  Get_key this (Some key) w =
  match heap w !! this with
  | Some _ =>
      match JSGet this (ToPropertyKey key) w with
      | Returned (Normal v) w' => Returned (Some v) w'
      | Returned (Throw e) w' => Returned None (LocalException_leave (Some e) w')
      | Aborted => Aborted
      | UndefinedBehavior => UndefinedBehavior
      end
  | None => Returned None (LocalException_leave (Some TypeError) w)
  end.
Proof.
  unfold Get_key, exec, run_snippet, with_object, bind. cbn.
  destruct (heap w !! this); [|reflexivity].
  destruct (JSGet _ _ _) as [[b|e] w'| |]; reflexivity.
Qed.

Lemma Has_key_eq (this : nat) (key : JSValue) (w : World) :
  Has_key this (Some key) w =
  match heap w !! this with
  | Some _ => Returned (Just (JSHas this (ToPropertyKey key) w)) w
  | None => Returned Nothing (LocalException_leave (Some TypeError) w)
  end.
Proof.
  unfold Has_key, exec, run_snippet, with_object, bind. cbn.
  destruct (heap w !! this); reflexivity.
Qed.



(** *** Installing an accessor *)

Lemma fresh_not_in_heap (w : World) : heap w !! fresh (dom (heap w)) = None.
Proof. apply not_elem_of_dom, is_fresh. Qed.

(** The snippet of [SetAccessorProperty], step by step: the deletion comes
    first, then one of the three definitions. *)
Lemma SetAccessorProperty_eq (this : nat) (name : JSValue) (g s : option JSValue)
  (w : World) (obj : JSObjectData) :
  heap w !! this = Some obj ->
  SetAccessorProperty this (Some name) g s w =
  (let k := ToPropertyKey name in
   let w1 := snd (JSDelete this k w) in
   let c :=
     if negb (JSValueToBoolean (Some (toJS s))) then
       let '(f, w2) := JSObjectMake (Some (CallReplaceSetter (Some name))) w1 in
       defineProperty this k (Some (toJS g)) (Some (JSObject f)) w2
     else if negb (JSValueToBoolean (Some (toJS g))) then
       defineProperty this k None (Some (toJS s)) w1
     else defineProperty this k (Some (toJS g)) (Some (toJS s)) w1 in
   match c with
   | Returned (Normal _) w' => Returned tt w'
   | Returned (Throw e) w' => Returned tt (LocalException_leave (Some e) w')
   | Aborted => Aborted
   | UndefinedBehavior => UndefinedBehavior
   end).
Proof.
  intros Ho.
  unfold SetAccessorProperty, exec, run_snippet, with_object, bind.
  cbn -[JSObjectMake JSValueToBoolean defineProperty JSDelete].
  rewrite Ho.
  destruct (negb (JSValueToBoolean (Some (toJS s)))).
  - destruct (JSObjectMake _ _) as [f w2].
    destruct (defineProperty _ _ _ _ _) as [[]| |]; reflexivity.
  - destruct (negb (JSValueToBoolean (Some (toJS g))));
      destruct (defineProperty _ _ _ _ _) as [[]| |]; reflexivity.
Qed.

Lemma heap_JSObjectMake (c : option Callable) (w : World) :
  JSObjectMake c w
  = (fresh (dom (heap w)),
     set_heap (<[fresh (dom (heap w)) := mkObject ∅ (object_prototype w) true c]> (heap w)) w).
Proof. reflexivity. Qed.



Lemma JSDelete_isolate (o : nat) (k : PropertyKey) (w : World) :
  isolate (snd (JSDelete o k w)) = isolate w.
Proof.
  unfold JSDelete. destruct (GetOwnProperty w o k) as [p|]; [|reflexivity].
  destruct (is_configurable p); reflexivity.
Qed.




Lemma SetAccessor_eq (this : nat) (name : JSValue) (g s : option nat)
  (data : option JSValue) (w : World) :
  SetAccessor this (Some name) g s data w =
  (let wrap := mkAccessorInfo g s (Some name) (Some (default JSUndefined data)) in
   let accessor := fresh (dom (heap w)) in
   let w1 := TryCatch_enter (snd (JSObjectMake (Some (CallAccessor wrap)) w)) in
   match SetAccessorProperty this (Some name)
           (if non_null g then Some (JSObject accessor) else None)
           (if non_null s then Some (JSObject accessor) else None) w1 with
   | Returned _ w2 =>
       Returned (if TryCatch_HasCaught w2 then Nothing else Just true) (TryCatch_leave w2)
   | Aborted => Aborted
   | UndefinedBehavior => UndefinedBehavior
   end).
Proof.
  unfold SetAccessor, bind, modify, get_world, ret.
  rewrite heap_JSObjectMake. cbn [snd].
  destruct data as [d|]; cbn [default from_option id];
  (destruct (SetAccessorProperty _ _ _ _ _) as [[] w2| |]; [|reflexivity|reflexivity];
   destruct (TryCatch_HasCaught w2); reflexivity).
Qed.






(** *** The walk along the prototype chain *)

Lemma GetPrototype_eq (o : nat) (w : World) :
  GetPrototype o w = Returned (prototype_of w o) w.
Proof.
  unfold GetPrototype, exec4, exec, run_snippet, with_object, bind, prototype_of. cbn.
  destruct (heap w !! o); reflexivity.
Qed.

(** The inner loop of the walk answers whether the template is in the
    lineage. *)
Lemma template_chain_has_spec (x : TemplateImpl) :
  forall t,
    template_chain_has t x
    = existsb (fun t' => Nat.eqb (address_of t') (address_of x)) (template_lineage t).
Proof.
  fix IH 1. intros [a p]. cbn [template_chain_has template_lineage existsb address_of].
  destruct (Nat.eqb a (address_of x)); [reflexivity|]. cbn [orb].
  destruct p as [t'|]; [apply IH|reflexivity].
Qed.

Lemma instance_of_spec (w : World) (tmplimpl : TemplateImpl) (o : nat) :
  instance_of (getPrivateInstance o w) tmplimpl = made_from w tmplimpl o.
Proof.
  unfold instance_of, made_from, templates_of.
  destruct (getPrivateInstance o w) as [wrap|]; [|reflexivity].
  destruct (m_object_template wrap) as [object_template|]; [|reflexivity].
  destruct (m_constructor_template object_template) as [t|]; [|reflexivity].
  apply template_chain_has_spec.
Qed.

(** Enough fuel: one iteration more than the chain is long. *)
Lemma FindInstance_loop_enough (tmplimpl : TemplateImpl) (w : World) (n : nat) :
  forall (v : option JSValue) (chain : list nat) (fuel : nat),
    prototype_chain n w v = Some chain ->
    (n < fuel)%nat ->
    FindInstance_loop fuel tmplimpl v w
    = Returned (Some (first_instance w tmplimpl chain)) w.
Proof.
  induction n as [|n IH]; intros v chain fuel Hchain Hfuel;
    (destruct fuel as [|fuel]; [lia|]).
  - cbn [prototype_chain] in Hchain. cbn [FindInstance_loop].
    destruct v as [[| | | | | | |o]|]; try discriminate;
      injection Hchain as <-; reflexivity.
  - cbn [prototype_chain] in Hchain. cbn [FindInstance_loop].
    destruct v as [[| | | | | | |o]|];
      try (injection Hchain as <-; reflexivity).
    destruct (prototype_chain n w (prototype_of w o)) as [rest|] eqn:Hrest; [|discriminate].
    cbn in Hchain. injection Hchain as <-.
    unfold bind, get_world. unfold first_instance. cbn [List.find].
    rewrite instance_of_spec.
    destruct (made_from w tmplimpl o); [reflexivity|].
    rewrite GetPrototype_eq.
    rewrite (IH _ rest fuel Hrest) by lia. reflexivity.
Qed.

(** C9. On a prototype chain that is finite (it reaches a value that is
    not an object within [n] steps, as the host guarantees of its chains),
    [FindInstanceInPrototypeChain] terminates: the loop is over after at
    most [n + 1] iterations, for every start object and every template. It
    returns the first object of the walk, the start object included, that
    is made from the template (the template is the constructor template of
    the record of the object or one of the templates that one inherits
    from), and the empty handle if the walk reaches a value that is not an
    object without meeting one. *)
Theorem FindInstanceInPrototypeChain_finds_first (this : nat) (tmpl : TemplateImpl)
  (w : World) (n : nat) (chain : list nat) (fuel : nat) :
  prototype_chain n w (Some (JSObject this)) = Some chain ->
  (n < fuel)%nat ->
  FindInstanceInPrototypeChain fuel this tmpl w
  = Returned (Some (first_instance w tmpl chain)) w.
Proof. apply FindInstance_loop_enough. Qed.

(** The finiteness of the chain is needed: on an object that is its own
    prototype and is no instance of the template, the loop is still running
    after any number of iterations. *)
Lemma FindInstance_loop_on_a_cycle (tmplimpl : TemplateImpl) (w : World) (o : nat)
  (obj : JSObjectData) (fuel : nat) :
  heap w !! o = Some obj -> proto obj = JSObject o ->
  instance_of (getPrivateInstance o w) tmplimpl = false ->
  FindInstance_loop fuel tmplimpl (Some (JSObject o)) w = Returned None w.
Proof.
  intros Ho Hp Hi. induction fuel as [|fuel IH]; [reflexivity|].
  cbn [FindInstance_loop]. unfold bind, get_world. rewrite Hi, GetPrototype_eq.
  unfold prototype_of. rewrite Ho, Hp. exact IH.
Qed.

(** *** Internal fields *)

Lemma array_cell_in_range {A : Type} (a : list A) (index : Z) :
  0 <= index < Z.of_nat (List.length a) -> is_Some (array_cell a index).
Proof.
  intros H. unfold array_cell. destruct (index <? 0) eqn:E; [lia|].
  apply lookup_lt_is_Some. lia.
Qed.

Lemma array_cell_written {A : Type} (a : list A) (index : Z) (x : A) :
  0 <= index < Z.of_nat (List.length a) ->
  array_cell (<[Z.to_nat index := x]> a) index = Some x.
Proof.
  intros H. unfold array_cell. destruct (index <? 0) eqn:E; [lia|].
  apply list_lookup_insert_eq. lia.
Qed.

Lemma array_cell_other {A : Type} (a : list A) (index j : Z) (x : A) :
  0 <= index -> j <> index ->
  array_cell (<[Z.to_nat index := x]> a) j = array_cell a j.
Proof.
  intros H Hne. unfold array_cell. destruct (j <? 0) eqn:E; [reflexivity|].
  apply list_lookup_insert_ne. lia.
Qed.

(** C8, against the code. For an object with a record whose slot array
    is allocated, the field count is that of the record, and the claim
    holds from index 0 on: a field [inside] the count, written with [v],
    reads back as [v], with the count and the other fields as before, and
    a write [beyond] the count changes nothing. It fails [below] 0: a
    negative index is below the count, so it passes the guard
    [index < m_num_internal_fields], which is the only one, and the write
    goes to a cell before the slot array instead of a field that reads
    back as [v]. *)
Theorem internal_field_write_then_read (this : nat) (inside beyond below : Z) (v : JSValue)
  (w : World) (wrap : InstanceWrap) :
  getPrivateInstance this w = Some wrap ->
  fields_allocated wrap ->
  0 <= inside < m_num_internal_fields wrap ->
  m_num_internal_fields wrap <= beyond ->
  below < 0 ->
  InternalFieldCount this w = Returned (m_num_internal_fields wrap) w
  /\ (exists w',
        SetInternalField this inside (Some v) w = Returned tt w'
        /\ SlowGetInternalField this inside w' = Returned (Some v) w'
        /\ InternalFieldCount this w' = Returned (m_num_internal_fields wrap) w'
        /\ forall j, j <> inside ->
             returned (SlowGetInternalField this j w')
             = returned (SlowGetInternalField this j w))
  /\ SetInternalField this beyond (Some v) w = Returned tt w
  /\ below < m_num_internal_fields wrap
  /\ SetInternalField this below (Some v) w = UndefinedBehavior.
Proof.
  intros Hw Hal Hin Hbe Hbl. unfold fields_allocated in Hal.
  unfold InternalFieldCount, SetInternalField, bind, get_world, ret. rewrite Hw.
  split; [reflexivity|]. split; [|split; [|split]].
  - destruct Hin as [H0 Hlt]. apply Z.ltb_lt in Hlt as Hltb. rewrite Hltb.
    destruct (array_cell_in_range (m_internal_fields wrap) inside ltac:(lia)) as [old Hold].
    rewrite Hold. eexists. split; [reflexivity|].
    unfold store_instance, modify, SlowGetInternalField, bind, get_world, ret,
      getPrivateInstance.
    cbn [instances set_instances]. rewrite lookup_insert_eq.
    cbn [m_num_internal_fields m_internal_fields]. rewrite Hltb.
    rewrite array_cell_written by lia.
    split; [reflexivity|]. split; [reflexivity|].
    intros j Hj. unfold getPrivateInstance in Hw. rewrite Hw.
    rewrite array_cell_other by assumption.
    destruct (j <? m_num_internal_fields wrap); [|reflexivity].
    destruct (array_cell (m_internal_fields wrap) j) as [[x|]|]; reflexivity.
  - apply Z.ltb_ge in Hbe. rewrite Hbe. reflexivity.
  - lia.
  - assert (Hlt : (below <? m_num_internal_fields wrap) = true) by (apply Z.ltb_lt; lia).
    rewrite Hlt. unfold array_cell.
    assert (Hneg : (below <? 0) = true) by (apply Z.ltb_lt; lia).
    rewrite Hneg. reflexivity.
Qed.


(** *** Where a private property goes *)

Lemma find_property_from_null (n : nat) (w : World) (k : PropertyKey) :
  find_property_from n w JSNull k = None.
Proof. destruct n; reflexivity. Qed.

Lemma writes_own_data_plain (w : World) (o : nat) (k : PropertyKey) :
  writes_own_data w o k = true -> accepts_write w o k = true.
Proof.
  unfold writes_own_data, accepts_write.
  destruct (heap w !! o) as [obj|] eqn:Ho; [|discriminate].
  destruct (props obj !! k) as [p|] eqn:Hk.
  - rewrite (find_property_own w o k obj p Ho Hk).
    destruct p as [? [] ? ?|]; intros; try discriminate; reflexivity.
  - intros H. apply andb_true_iff in H as [He Hp]. apply bool_decide_eq_true in Hp.
    unfold find_property. cbn [find_property_from]. rewrite Ho, Hk, Hp, find_property_from_null.
    exact He.
Qed.

Lemma SnippetAssign_eq (this : nat) (key value : JSValue) (w : World) :
  accepts_write w this (ToPropertyKey key) = true ->
  exists e c,
    exec SnippetAssign [Some (JSObject this); Some key; Some value] w
    = Returned (Some JSUndefined, None)
               (put_property this (ToPropertyKey key) (DataProperty value true e c) w).
Proof.
  intros Hacc.
  destruct (accepts_write_set_data w this (ToPropertyKey key) value Hacc)
    as (obj & e & c & Hobj & Hdata).
  exists e, c.
  unfold exec, run_snippet, with_object, bind. cbn -[JSSet].
  rewrite Hobj, (JSSet_plain _ _ _ _ _ (accepts_write_plain _ _ _ Hacc)), Hdata.
  reflexivity.
Qed.

Lemma writes_own_data_frame (w w2 : World) (o : nat) (k : PropertyKey) :
  heap w2 !! o = heap w !! o ->
  writes_own_data w o k = true -> writes_own_data w2 o k = true.
Proof. unfold writes_own_data. intros ->. trivial. Qed.

Lemma own_property_names_has (obj : JSObjectData) (s : string) (p : Property) :
  props obj !! PKString s = Some p -> JSString s ∈ own_property_names obj.
Proof.
  intros H. unfold own_property_names. apply list_elem_of_omap.
  exists (PKString s, p). split; [|reflexivity].
  apply elem_of_map_to_list. exact H.
Qed.

(** The decimal form determines the number, and is never "length". *)
Lemma decimal_parses (z : Z) : NilZero.int_of_string (decimal z) = Some (Z.to_int z).
Proof.
  unfold decimal. apply NilZero.isi.
  - destruct z as [|p|p]; cbn; try discriminate.
    intros [= H]. revert H. apply Unsigned.to_uint_nonnil.
  - destruct z as [|p|p]; cbn; try discriminate.
    intros [= H]. revert H. apply Unsigned.to_uint_nonnil.
Qed.

Lemma decimal_inj (a b : Z) : decimal a = decimal b -> a = b.
Proof.
  intros H. pose proof (decimal_parses a) as Ha. rewrite H, decimal_parses in Ha.
  injection Ha as Ha. rewrite <- (DecimalZ.of_to a), <- (DecimalZ.of_to b). congruence.
Qed.

Lemma decimal_not_length (z : Z) : decimal z <> "length".
Proof.
  intros H. pose proof (decimal_parses z) as Hz. rewrite H in Hz. discriminate.
Qed.

(** An array reads back as the list it was made from. *)
Lemma array_props_lookup (vs : list JSValue) :
  forall i j : nat,
    array_props i vs !! PKString (decimal (Z.of_nat (i + j)))
    = (fun v => DataProperty v true true true) <$> vs !! j.
Proof.
  induction vs as [|v rest IH]; intros i j.
  - cbn [array_props]. rewrite lookup_empty. reflexivity.
  - cbn [array_props]. destruct j as [|j].
    + rewrite Nat.add_0_r, lookup_insert_eq. reflexivity.
    + rewrite lookup_insert_ne.
      * replace (i + S j)%nat with (S i + j)%nat by lia. apply IH.
      * intros [= H]. apply decimal_inj in H. lia.
Qed.

Lemma array_props_length (vs : list JSValue) (i : nat) :
  array_props i vs !! PKString "length" = None.
Proof.
  revert i. induction vs as [|v rest IH]; intros i; cbn [array_props].
  - apply lookup_empty.
  - rewrite lookup_insert_ne; [apply IH|].
    intros [= H]. exact (decimal_not_length _ H).
Qed.

Lemma omap_lookup_seq {A : Type} (f : nat -> option A) (l : list A) (i : nat) :
  (forall j, f (i + j)%nat = l !! j) ->
  omap f (seq i (List.length l)) = l.
Proof.
  revert i. induction l as [|x l IH]; intros i H; [reflexivity|].
  cbn [List.length seq]. cbn [omap list_omap].
  rewrite <- (Nat.add_0_r i) at 1. rewrite H. cbn.
  f_equal. apply IH. intros j. replace (S i + j)%nat with (i + S j)%nat by lia.
  rewrite H. reflexivity.
Qed.

Lemma array_elements_make_array (vs : list JSValue) (w : World) :
  array_elements (snd (make_array vs w)) (Some (JSObject (fst (make_array vs w)))) = vs.
Proof.
  unfold make_array, array_elements. cbn [fst snd heap set_heap].
  rewrite lookup_insert_eq. cbn [props]. rewrite lookup_insert_eq.
  rewrite Nat2Z.id. apply omap_lookup_seq. intros j.
  rewrite lookup_insert_ne by (intros [= H]; exact (decimal_not_length _ (eq_sym H))).
  rewrite (array_props_lookup vs 0 j). destruct (vs !! j); reflexivity.
Qed.

(** [GetOwnPropertyNames] returns a new array of the own property names
    of the object. *)
Lemma GetOwnPropertyNames_eq (this : nat) (w : World) (obj : JSObjectData) :
  heap w !! this = Some obj ->
  GetOwnPropertyNames this w
  = Returned (Some (JSObject (fst (make_array (own_property_names obj) w))))
             (snd (make_array (own_property_names obj) w)).
Proof.
  intros Ho. unfold GetOwnPropertyNames, exec, run_snippet, with_object, bind.
  cbn -[make_array]. rewrite Ho. reflexivity.
Qed.

(** C4, at the point where the code departs from it. On an object
    without a private backing store, where the write of the key is decided
    by the object alone, [SetPrivate] succeeds and creates the backing
    store, a new object, but leaves it without any property: the snippet
    is handed the object itself, and the value becomes an ordinary own
    data property of the object under the key. When the key is a string
    key, it is an element of the array [GetOwnPropertyNames] returns. *)
Theorem SetPrivate_writes_on_the_object (this : nat) (key value : JSValue) (w : World) :
  getPrivateInstance this w ≫= m_private_properties = None ->
  writes_own_data w this (ToPropertyKey key) = true ->
  exists (w' : World) (store : nat) (wrap : InstanceWrap) (o' : JSObjectData) (e c : bool),
    SetPrivate this (Some key) (Some value) w = Returned (Just true) w'
    /\ heap w !! store = None
    /\ getPrivateInstance this w' = Some wrap
    /\ m_private_properties wrap = Some store
    /\ (exists s', heap w' !! store = Some s' /\ props s' = ∅)
    /\ heap w' !! this = Some o'
    /\ props o' !! ToPropertyKey key = Some (DataProperty value true e c)
    /\ (forall s, ToPropertyKey key = PKString s ->
        exists names w'',
          GetOwnPropertyNames this w' = Returned names w''
          /\ JSString s ∈ array_elements w'' names).
Proof.
  intros Hstore Hplain.
  set (k := ToPropertyKey key) in *.
  set (store := fresh (dom (heap w))).
  assert (Hfresh : heap w !! store = None) by apply fresh_not_in_heap.
  assert (Hobj : exists obj, heap w !! this = Some obj).
  { unfold writes_own_data in Hplain. destruct (heap w !! this); [eauto|discriminate]. }
  destruct Hobj as [obj Hobj].
  assert (Hne : this <> store) by (intros E; rewrite E in Hobj; congruence).
  set (S0 := mkObject ∅ (object_prototype w) true None).
  assert (Hstep : forall w2 : World,
             heap w2 = <[store := S0]> (heap w) ->
             exists e c,
               exec SnippetAssign [Some (JSObject this); Some key; Some value] w2
               = Returned (Some JSUndefined, None)
                          (put_property this k (DataProperty value true e c) w2)
               /\ heap w2 !! this = Some obj).
  { intros w2 Hh2.
    assert (Ho2 : heap w2 !! this = Some obj).
    { rewrite Hh2, lookup_insert_ne by congruence. exact Hobj. }
    assert (Hacc2 : accepts_write w2 this k = true).
    { apply writes_own_data_plain. eapply writes_own_data_frame; [|exact Hplain].
      rewrite Ho2, Hobj. reflexivity. }
    destruct (SnippetAssign_eq this key value w2 Hacc2) as (e & c & Hexec).
    exists e, c. split; assumption. }
  unfold SetPrivate, bind, get_world, ret, store_instance, modify, makePrivateInstance.
  destruct (getPrivateInstance this w) as [wrap|] eqn:Hw;
    [cbn in Hstore; rewrite Hstore|cbn [m_private_properties]];
    rewrite heap_JSObjectMake;
    cbn [fst snd heap set_heap set_instances instances m_num_internal_fields
         m_internal_fields m_object_template m_hash];
    fold store; fold S0;
    match goal with |- context [exec _ _ ?W] => set (w2 := W) end;
    destruct (Hstep w2 eq_refl) as (e & c & Hexec & Ho2);
    rewrite Hexec;
    cbn [ShouldThow LocalException_leave toMaybe has_value_ value_];
    (eexists _, store, _, _, e, c;
     split; [reflexivity|]; split; [exact Hfresh|];
     split; [unfold getPrivateInstance;
             cbn [instances put_property update_object set_heap w2 set_instances];
             apply lookup_insert_eq|];
     split; [reflexivity|];
     split; [exists S0; split; [|reflexivity];
             cbn [heap put_property update_object set_heap];
             rewrite lookup_alter_ne by congruence;
             apply lookup_insert_eq|];
     split; [apply heap_put_property; exact Ho2|];
     split; [cbn [props]; apply lookup_insert_eq|];
     intros s Hs; eexists _, _;
     split; [apply (GetOwnPropertyNames_eq _ _ _ (heap_put_property _ _ _ _ _ Ho2))|];
     rewrite array_elements_make_array;
     eapply own_property_names_has; rewrite <- Hs; cbn [props];
     apply lookup_insert_eq).
Qed.

End Properties.

(** ** Further properties of Object.cpp *)

Section Composition.

Context {embedder : Embedder}.

(** *** The named operations on an object that exists *)

Lemma Delete_key_eq (this : nat) (key : JSValue) (w : World) :
  Delete_key this (Some key) w =
  match heap w !! this with
  | Some _ => Returned (Just (fst (JSDelete this (ToPropertyKey key) w)))
                       (snd (JSDelete this (ToPropertyKey key) w))
  | None => Returned Nothing (LocalException_leave (Some TypeError) w)
  end.
Proof.
  unfold Delete_key, exec, run_snippet, with_object, bind. cbn -[JSDelete].
  destruct (heap w !! this); [|reflexivity].
  destruct (JSDelete this (ToPropertyKey key) w) as [[] w']; reflexivity.
Qed.

Lemma HasRealNamedProperty_eq (this : nat) (key : JSValue) (w : World) :
  HasRealNamedProperty this (Some key) w =
  match heap w !! this with
  | Some obj => Returned (Just (bool_decide (is_Some (props obj !! ToPropertyKey key)))) w
  | None => Returned Nothing (LocalException_leave (Some TypeError) w)
  end.
Proof.
  unfold HasRealNamedProperty, exec, run_snippet, with_object, bind, GetOwnProperty. cbn.
  destruct (heap w !! this); [|reflexivity]. cbn.
  destruct (bool_decide _); reflexivity.
Qed.


Lemma Get_index_eq (this : nat) (index : Z) (w : World) :
  Get_index this index w =
  match JSGet this (PKString (ndx index)) w with
  | Returned (Normal v) w' => Returned (Some v) w'
  | Returned (Throw e) w' => Returned None (LocalException_leave (Some e) w')
  | Aborted => Aborted
  | UndefinedBehavior => UndefinedBehavior
  end.
Proof.
  unfold Get_index, JSObjectGetProperty, bind.
  destruct (JSGet _ _ _) as [[v|e] w'| |]; reflexivity.
Qed.

Lemma Delete_index_eq (this : nat) (index : Z) (w : World) :
  Delete_index this index w
  = Returned (Just (fst (JSDelete this (PKString (ndx index)) w)))
             (snd (JSDelete this (PKString (ndx index)) w)).
Proof.
  unfold Delete_index, JSObjectDeleteProperty, bind.
  destruct (JSDelete _ _ _) as [b w']. reflexivity.
Qed.

(** *** Indexed and named operations *)

(** X1. On an object that exists, the indexed [Get], [Has] and [Delete]
    are the named ones at the number key that [sprintf("%d")] prints for
    the index: the index itself below 2^31, the index less 2^32 from
    there on. *)
Theorem indexed_operations_are_named_ones (this : nat) (index : Z) (w : World)
  (obj : JSObjectData) :
  heap w !! this = Some obj ->
  Get_index this index w = Get_key this (Some (JSNumber (as_int32 index))) w
  /\ Has_index this index w = Has_key this (Some (JSNumber (as_int32 index))) w
  /\ Delete_index this index w = Delete_key this (Some (JSNumber (as_int32 index))) w.
Proof.
  intros Hobj. rewrite Get_key_eq, Has_key_eq, Delete_key_eq, Get_index_eq, Delete_index_eq, Hobj.
  repeat split.
Qed.

Lemma Set_index_plain (this : nat) (index : Z) (value : JSValue) (w : World) :
  accepts_write w this (PKString (ndx index)) = true ->
  exists obj e c,
    heap w !! this = Some obj
    /\ Set_index this index (Some value) w
       = Returned (Just true)
                  (put_property this (PKString (ndx index)) (DataProperty value true e c) w).
Proof.
  intros Hacc.
  destruct (accepts_write_set_data w this (PKString (ndx index)) value Hacc)
    as (obj & e & c & Hobj & Hdata).
  exists obj, e, c. split; [exact Hobj|].
  unfold Set_index, JSObjectSetProperty, bind. change (toJS (Some value)) with value.
  rewrite (JSSet_plain _ _ _ _ _ (accepts_write_plain _ _ _ Hacc)), Hdata. reflexivity.
Qed.

(** X2. The indexed write, then the indexed read, on an ordinary object
    (no Array and no view of an array buffer): when the write of the
    index name on the object meets no setter and no read-only property,
    [Set(o, index, v)] returns true, and afterwards [Get(o, index)]
    returns [v] and [Has(o, index)] returns true. *)
Theorem Set_index_then_Get_and_Has (this : nat) (index : Z) (value : JSValue) (w : World) :
  ordinary w this = true ->
  accepts_write w this (PKString (ndx index)) = true ->
  exists w1,
    Set_index this index (Some value) w = Returned (Just true) w1
    /\ Get_index this index w1 = Returned (Some value) w1
    /\ Has_index this index w1 = Returned (Just true) w1.
Proof.
  intros _ Hacc.
  destruct (Set_index_plain this index value w Hacc) as (obj & e & c & Hobj & Hset).
  eexists. split; [exact Hset|].
  pose proof (find_property_put this (PKString (ndx index)) (DataProperty value true e c) w obj Hobj)
    as Hf.
  split.
  - rewrite Get_index_eq. unfold JSGet. rewrite Hf. reflexivity.
  - unfold Has_index, JSObjectHasProperty, bind, JSHas. rewrite Hf. reflexivity.
Qed.


(** *** Deleting *)


Lemma size_update_object (o : nat) (f : JSObjectData -> JSObjectData) (w : World) :
  size (heap (update_object o f w)) = size (heap w).
Proof.
  unfold update_object. cbn [heap set_heap].
  rewrite <- (size_dom (D := gset nat) (alter f o (heap w))), dom_alter_L.
  apply size_dom.
Qed.



(** X6. [HasRealNamedProperty] looks at the object alone: whenever it
    answers true, [Has], which also searches the prototype chain, answers
    true as well; and it changes nothing. *)
Theorem HasRealNamedProperty_implies_Has (this : nat) (key : JSValue) (w w' : World) :
  HasRealNamedProperty this (Some key) w = Returned (Just true) w' ->
  w' = w
  /\ is_Some (GetOwnProperty w this (ToPropertyKey key))
  /\ Has_key this (Some key) w = Returned (Just true) w.
Proof.
  rewrite HasRealNamedProperty_eq, Has_key_eq. unfold GetOwnProperty.
  destruct (heap w !! this) as [obj|] eqn:Hobj; [|discriminate].
  intros H. injection H as Hb <-. apply bool_decide_eq_true in Hb. destruct Hb as [p Hp].
  split; [reflexivity|]. split; [eauto|].
  unfold JSHas. rewrite (find_property_own w this _ obj p Hobj Hp). reflexivity.
Qed.

(** *** Listing the property names *)

Lemma NoDup_omap_on {A B : Type} (f : A -> option B) (l : list A) :
  (forall x y b, x ∈ l -> y ∈ l -> f x = Some b -> f y = Some b -> x = y) ->
  NoDup l -> NoDup (omap f l).
Proof.
  induction l as [|a l IH]; intros Hinj Hnd; cbn; [constructor|].
  apply NoDup_cons in Hnd as [Ha Hnd].
  assert (Hrest : NoDup (omap f l)).
  { apply IH; [|exact Hnd]. intros x y b Hx Hy. apply Hinj; right; assumption. }
  destruct (f a) as [b|] eqn:Hfa; [|exact Hrest].
  apply NoDup_cons. split; [|exact Hrest].
  intros Hb. apply list_elem_of_omap in Hb as (y & Hy & Hfy).
  apply Ha. rewrite (Hinj a y b); [exact Hy|left|right; exact Hy|exact Hfa|exact Hfy].
Qed.

Lemma own_property_names_spec (obj : JSObjectData) (v : JSValue) :
  v ∈ own_property_names obj
  <-> exists s, v = JSString s /\ is_Some (props obj !! PKString s).
Proof.
  unfold own_property_names. rewrite list_elem_of_omap. split.
  - intros ([k p] & Hin & Hf). cbn in Hf. destruct k as [s|]; [|discriminate].
    injection Hf as <-. apply elem_of_map_to_list in Hin. eauto.
  - intros (s & -> & p & Hp). exists (PKString s, p). split; [|reflexivity].
    apply elem_of_map_to_list, Hp.
Qed.

Lemma own_property_names_NoDup (obj : JSObjectData) : NoDup (own_property_names obj).
Proof.
  apply NoDup_omap_on; [|apply NoDup_map_to_list].
  intros [k1 p1] [k2 p2] b H1 H2 Hf1 Hf2. cbn in Hf1, Hf2.
  destruct k1 as [s1|]; [|discriminate]. destruct k2 as [s2|]; [|discriminate].
  assert (s1 = s2) as -> by congruence.
  apply elem_of_map_to_list in H1, H2. congruence.
Qed.

Lemma make_array_frame (vs : list JSValue) (w : World) (o : nat) :
  is_Some (heap w !! o) -> heap (snd (make_array vs w)) !! o = heap w !! o.
Proof.
  intros Ho. unfold make_array. cbn [snd heap set_heap].
  apply lookup_insert_ne. intros <-. rewrite fresh_not_in_heap in Ho.
  destruct Ho; discriminate.
Qed.

(** X7. [GetOwnPropertyNames] on an object that exists returns a new
    array whose elements are exactly the string names of the own
    properties of the object, each once: the properties that are not
    enumerable are listed, those named by a symbol are not. The objects
    that exist and the exception state stay as they are. *)
Theorem GetOwnPropertyNames_lists_own_string_keys (this : nat) (w : World)
  (obj : JSObjectData) :
  heap w !! this = Some obj ->
  exists (a : nat) (w' : World),
    GetOwnPropertyNames this w = Returned (Some (JSObject a)) w'
    /\ heap w !! a = None
    /\ (forall v, v ∈ array_elements w' (Some (JSObject a))
                  <-> exists s, v = JSString s /\ is_Some (props obj !! PKString s))
    /\ NoDup (array_elements w' (Some (JSObject a)))
    /\ (forall o, is_Some (heap w !! o) -> heap w' !! o = heap w !! o)
    /\ isolate w' = isolate w.
Proof.
  intros Hobj. rewrite (GetOwnPropertyNames_eq this w obj Hobj).
  eexists _, _. split; [reflexivity|].
  rewrite array_elements_make_array.
  split; [apply fresh_not_in_heap|].
  split; [apply own_property_names_spec|].
  split; [apply own_property_names_NoDup|].
  split; [intros o; apply make_array_frame|reflexivity].
Qed.

Lemma string_keys_spec (b : bool) (obj : JSObjectData) (s : string) :
  s ∈ string_keys b obj
  <-> exists p, props obj !! PKString s = Some p /\ (b = true -> is_enumerable p = true).
Proof.
  unfold string_keys. rewrite list_elem_of_omap. split.
  - intros ([k p] & Hin & Hf). apply elem_of_map_to_list in Hin.
    destruct k as [s'|]; [|destruct p; discriminate].
    assert (Hs : (if b && negb (is_enumerable p) then None else Some s') = Some s)
      by (destruct p; exact Hf).
    destruct b, (is_enumerable p) eqn:He; cbn in Hs; try discriminate;
      injection Hs as <-; exists p; (split; [assumption|]); intros; congruence.
  - intros (p & Hp & He). exists (PKString s, p). split; [apply elem_of_map_to_list, Hp|].
    destruct p as [v wr e c|g st e c]; cbn in He |- *;
      (destruct b; [rewrite (He eq_refl)|]; reflexivity).
Qed.

Lemma for_in_keys_spec (w : World) (s : string) (n : nat) :
  forall (v : JSValue) (seen : list string),
    s ∈ for_in_keys n w v seen
    <-> (s ∉ seen)
        /\ exists p, find_property_from n w v (PKString s) = Some p /\ is_enumerable p = true.
Proof.
  induction n as [|n IH]; intros v seen.
  - cbn. split; [intros H; inversion H|intros (_ & p & H & _); discriminate].
  - destruct v; cbn [for_in_keys find_property_from];
      try (split; [intros H; inversion H|intros (_ & p & H & _); discriminate]).
    destruct (heap w !! ref) as [obj|];
      [|split; [intros H; inversion H|intros (_ & p & H & _); discriminate]].
    rewrite elem_of_app, list_elem_of_filter, IH, !string_keys_spec, not_elem_of_app.
    rewrite string_keys_spec.
    destruct (props obj !! PKString s) as [p|] eqn:Hp.
    + split.
      * intros [(Hseen & p' & Hp' & He)|((Hno & _) & _)].
        -- injection Hp' as <-. split; [exact Hseen|]. exists p. split; [reflexivity|auto].
        -- exfalso. apply Hno. exists p. split; [reflexivity|discriminate].
      * intros (Hseen & p' & Hp' & He). injection Hp' as <-. left.
        split; [exact Hseen|]. exists p. split; [reflexivity|auto].
    + split.
      * intros [(_ & p' & Hp' & _)|((_ & Hseen) & H)]; [discriminate|]. split; assumption.
      * intros (Hseen & H). right. split; [|exact H]. split; [|exact Hseen].
        intros (p' & Hp' & _). discriminate.
Qed.

Lemma GetPropertyNames_eq (this : nat) (w : World) (obj : JSObjectData) :
  heap w !! this = Some obj ->
  GetPropertyNames this w
  = (let keys := for_in_keys (S (size (heap w))) w (JSObject this) [] in
     Returned (Some (JSObject (fst (make_array (map JSString keys) w))))
              (snd (make_array (map JSString keys) w))).
Proof.
  intros Hobj. unfold GetPropertyNames, exec, run_snippet, with_object, bind.
  cbn -[make_array for_in_keys]. rewrite Hobj. reflexivity.
Qed.

(** X8. [GetPropertyNames] on an object that exists returns a new array
    whose elements are exactly the strings [s] for which the lookup of
    [s] through the prototype chain of the object ends at an enumerable
    property: inherited names are listed, and a property that is not
    enumerable hides an enumerable one of the same name further up. *)
Theorem GetPropertyNames_lists_enumerable_lookups (this : nat) (w : World)
  (obj : JSObjectData) :
  heap w !! this = Some obj ->
  exists (a : nat) (w' : World),
    GetPropertyNames this w = Returned (Some (JSObject a)) w'
    /\ heap w !! a = None
    /\ (forall v, v ∈ array_elements w' (Some (JSObject a))
                  <-> exists s p, v = JSString s
                                  /\ find_property w this (PKString s) = Some p
                                  /\ is_enumerable p = true)
    /\ (forall o, is_Some (heap w !! o) -> heap w' !! o = heap w !! o)
    /\ isolate w' = isolate w.
Proof.
  intros Hobj. rewrite (GetPropertyNames_eq this w obj Hobj). cbv zeta.
  eexists _, _. split; [reflexivity|].
  rewrite array_elements_make_array.
  split; [apply fresh_not_in_heap|].
  split; [|split; [intros o; apply make_array_frame|reflexivity]].
  intros v. rewrite list_elem_of_In, in_map_iff. split.
  - intros (s & <- & Hin). apply list_elem_of_In, for_in_keys_spec in Hin.
    destruct Hin as (_ & p & Hf & He). exists s, p. auto.
  - intros (s & p & -> & Hf & He). exists s. split; [reflexivity|].
    apply list_elem_of_In, for_in_keys_spec. split; [intros H; inversion H|]. exists p. auto.
Qed.

(** *** Attributes *)



(** *** Reading and writing through an accessor *)



(** *** An accessor that cannot be installed *)

Lemma accessor_field_throws (w : World) (field : option JSValue) (x : JSValue) :
  accessor_field w field = Throw x -> x = TypeError.
Proof.
  unfold accessor_field. destruct field as [[]|]; try (intros H; congruence).
  destruct (heap w !! ref ≫= call); intros H; congruence.
Qed.

Lemma defineProperty_refused (o : nat) (k : PropertyKey) (get set : option JSValue)
  (w : World) (obj : JSObjectData) :
  heap w !! o = Some obj ->
  get = Some JSNull
  \/ match props obj !! k with
     | Some p => is_configurable p = false
     | None => extensible obj = false
     end ->
  defineProperty o k get set w = Returned (Throw TypeError) w.
Proof.
  intros Ho Hbad. unfold defineProperty.
  destruct (accessor_field w get) as [g|x] eqn:Hg.
  - destruct (accessor_field w set) as [s|x] eqn:Hs.
    + destruct Hbad as [->|Hbad]; [discriminate|]. rewrite Ho.
      destruct (props obj !! k); rewrite Hbad; reflexivity.
    + rewrite (accessor_field_throws _ _ _ Hs). reflexivity.
  - rewrite (accessor_field_throws _ _ _ Hg). reflexivity.
Qed.

Lemma JSDelete_this (o : nat) (k : PropertyKey) (w : World) (obj : JSObjectData) :
  heap w !! o = Some obj ->
  exists objd,
    heap (snd (JSDelete o k w)) !! o = Some objd
    /\ props objd !! k = (if deletable (props obj !! k) then None else props obj !! k)
    /\ extensible objd = extensible obj.
Proof.
  intros Ho. unfold JSDelete, GetOwnProperty. rewrite Ho.
  destruct (props obj !! k) as [p|] eqn:Hk; cbn [deletable].
  - destruct (is_configurable p); cbn [snd].
    + unfold remove_property, update_object. cbn [heap set_heap].
      rewrite lookup_alter_eq, Ho. eexists. split; [reflexivity|].
      split; [apply lookup_delete_eq|reflexivity].
    + exists obj. auto.
  - exists obj. auto.
Qed.

(** X13. When [SetAccessor] fails. If the object is not extensible, or has
    a property of the name that is not configurable, or if both callbacks
    are null, [SetAccessor] returns nothing and leaves no exception behind:
    the exception state is the one it found. The deletion that precedes
    the definition has taken place all the same: an own property of the
    name that could be deleted is gone. *)
Theorem SetAccessor_refused (this : nat) (name : JSValue)
  (getter_callback setter_callback : option nat) (data : option JSValue) (w : World)
  (obj : JSObjectData) :
  heap w !! this = Some obj ->
  accepts_definition w this (ToPropertyKey name) = false
  \/ (getter_callback = None /\ setter_callback = None) ->
  exists w',
    SetAccessor this (Some name) getter_callback setter_callback data w = Returned Nothing w'
    /\ GetOwnProperty w' this (ToPropertyKey name)
       = (if deletable (props obj !! ToPropertyKey name) then None
          else props obj !! ToPropertyKey name)
    /\ isolate w' = isolate w.
Proof.
  intros Ho Hbad. set (k := ToPropertyKey name) in *.
  rewrite SetAccessor_eq. cbv zeta.
  set (wrap := mkAccessorInfo _ _ _ _).
  set (acc := fresh (dom (heap w))).
  set (w1 := TryCatch_enter (snd (JSObjectMake (Some (CallAccessor wrap)) w))).
  assert (Ho1 : heap w1 !! this = Some obj).
  { unfold w1. cbn [TryCatch_enter heap set_isolate JSObjectMake snd set_heap].
    rewrite lookup_insert_ne; [exact Ho|].
    intros E. rewrite <- E, fresh_not_in_heap in Ho. discriminate. }
  rewrite (SetAccessorProperty_eq this name _ _ w1 obj Ho1). cbv zeta. fold k.
  set (wd := snd (JSDelete this k w1)).
  destruct (JSDelete_this this k w1 obj Ho1) as (objd & Hd & Hkd & Hed). fold wd in Hd.
  assert (Hisod : isolate wd
                  = mkIsolate (scheduled_exception_ (isolate w)) (None :: try_catch_ (isolate w))).
  { unfold wd. rewrite JSDelete_isolate. reflexivity. }
  assert (Hrefuse : (getter_callback = None /\ setter_callback = None)
                    \/ match props objd !! k with
                       | Some p => is_configurable p = false
                       | None => extensible objd = false
                       end).
  { destruct Hbad as [Hacc|Hnone]; [right|left; exact Hnone].
    unfold accepts_definition in Hacc. rewrite Ho in Hacc. rewrite Hkd, Hed.
    destruct (props obj !! k) as [p|] eqn:Hk; cbn [deletable].
    - destruct (is_configurable p) eqn:Hc; [|exact Hc].
      rewrite andb_true_r in Hacc. exact Hacc.
    - rewrite andb_true_r in Hacc. exact Hacc. }
  assert (Hfin : forall wx,
             heap wx !! this = Some objd -> isolate wx = isolate wd ->
             exists w',
               Returned (if TryCatch_HasCaught (LocalException_leave (Some TypeError) wx)
                         then Nothing else Just true)
                        (TryCatch_leave (LocalException_leave (Some TypeError) wx))
               = Returned (@Nothing bool) w'
               /\ GetOwnProperty w' this k
                  = (if deletable (props obj !! k) then None else props obj !! k)
               /\ isolate w' = isolate w).
  { intros wx Hx Hix. unfold LocalException_leave. rewrite Hix, Hisod. cbn [try_catch_].
    eexists. split; [reflexivity|]. split.
    - unfold GetOwnProperty. cbn [TryCatch_leave set_isolate heap]. rewrite Hx. exact Hkd.
    - cbn. destruct (isolate w); reflexivity. }
  destruct setter_callback as [s0|];
    cbn [non_null toJS default from_option id JSValueToBoolean negb].
  - assert (Hr : match props objd !! k with
                 | Some p => is_configurable p = false
                 | None => extensible objd = false
                 end) by (destruct Hrefuse as [[_ ?]|?]; [discriminate|assumption]).
    destruct getter_callback as [g0|];
      cbn [non_null toJS default from_option id JSValueToBoolean negb];
      rewrite (defineProperty_refused this k _ _ wd objd Hd (or_intror Hr));
      apply Hfin; [exact Hd|reflexivity|exact Hd|reflexivity].
  - rewrite heap_JSObjectMake.
    set (w2 := set_heap _ wd).
    assert (Ho2 : heap w2 !! this = Some objd).
    { unfold w2. cbn [heap set_heap]. rewrite lookup_insert_ne; [exact Hd|].
      intros E. rewrite <- E, fresh_not_in_heap in Hd. discriminate. }
    rewrite (defineProperty_refused this k _ _ w2 objd Ho2).
    + apply Hfin; [exact Ho2|reflexivity].
    + destruct Hrefuse as [[-> _]|Hr]; [left; reflexivity|right; exact Hr].
Qed.

(** *** Private properties, once there is a backing store *)

Lemma SetPrivate_eq (this : nat) (key value : Local) (w : World) :
  SetPrivate this key value w =
  match exec SnippetAssign [Some (JSObject this); key; value] (with_store this w) with
  | Returned (_, exception) w' =>
      Returned (if ShouldThow exception then Nothing else Just true)
               (LocalException_leave exception w')
  | Aborted => Aborted
  | UndefinedBehavior => UndefinedBehavior
  end.
Proof.
  unfold SetPrivate, with_store, bind, get_world, ret, store_instance, modify,
    makePrivateInstance.
  destruct (getPrivateInstance this w) as [wrap|] eqn:Hw; cbn [mbind option_bind];
    [destruct (m_private_properties wrap) as [st|] eqn:Hst|cbn [m_private_properties]].
  - destruct (exec _ _ w) as [[r [x|]] w'| |]; reflexivity.
  - rewrite heap_JSObjectMake.
    cbn [fst snd heap set_heap set_instances instances default from_option id].
    match goal with |- match exec _ _ ?W with _ => _ end = match exec _ _ ?V with _ => _ end =>
      change W with V end.
    destruct (exec _ _ _) as [[r [x|]] w'| |]; reflexivity.
  - rewrite heap_JSObjectMake.
    cbn [fst snd heap set_heap set_instances instances default from_option id
         m_num_internal_fields m_internal_fields m_object_template m_hash object_prototype
         isolate].
    rewrite insert_insert_eq.
    match goal with |- match exec _ _ ?W with _ => _ end = match exec _ _ ?V with _ => _ end =>
      change W with V end.
    destruct (exec _ _ _) as [[r [x|]] w'| |]; reflexivity.
Qed.

Lemma with_store_heap (this : nat) (w : World) (o : nat) :
  is_Some (heap w !! o) -> heap (with_store this w) !! o = heap w !! o.
Proof.
  intros Ho. unfold with_store.
  destruct (getPrivateInstance this w ≫= m_private_properties); [reflexivity|].
  cbn [heap]. apply lookup_insert_ne. intros <-. rewrite fresh_not_in_heap in Ho.
  destruct Ho; discriminate.
Qed.

Lemma with_store_has (this : nat) (w : World) : has_store this (with_store this w) = true.
Proof.
  unfold with_store.
  destruct (getPrivateInstance this w ≫= m_private_properties) as [st|] eqn:Hst.
  - unfold has_store. rewrite Hst.
    destruct (getPrivateInstance this w); [reflexivity|discriminate].
  - unfold has_store, getPrivateInstance. cbn [instances]. rewrite lookup_insert_eq. reflexivity.
Qed.


Lemma SetPrivate_plain (this : nat) (key value : JSValue) (w : World) :
  writes_own_data w this (ToPropertyKey key) = true ->
  exists obj e c,
    heap (with_store this w) !! this = Some obj
    /\ heap w !! this = Some obj
    /\ SetPrivate this (Some key) (Some value) w
       = Returned (Just true)
                  (put_property this (ToPropertyKey key) (DataProperty value true e c)
                                (with_store this w)).
Proof.
  intros Hplain.
  assert (Hobj : exists obj, heap w !! this = Some obj).
  { unfold writes_own_data in Hplain. destruct (heap w !! this); [eauto|discriminate]. }
  destruct Hobj as [obj Hobj].
  assert (Ho2 : heap (with_store this w) !! this = Some obj).
  { rewrite with_store_heap; [exact Hobj|eauto]. }
  assert (Hacc : accepts_write (with_store this w) this (ToPropertyKey key) = true).
  { apply writes_own_data_plain. eapply writes_own_data_frame; [|exact Hplain].
    rewrite Ho2, Hobj. reflexivity. }
  destruct (SnippetAssign_eq this key value _ Hacc) as (e & c & Hexec).
  exists obj, e, c. split; [exact Ho2|]. split; [exact Hobj|].
  rewrite SetPrivate_eq, Hexec. reflexivity.
Qed.

Lemma GetPrivate_with_store (this : nat) (key : JSValue) (w : World) (obj : JSObjectData) :
  has_store this w = true -> heap w !! this = Some obj ->
  GetPrivate this (Some key) w =
  match JSGet this (ToPropertyKey key) w with
  | Returned (Normal v) w' => Returned (Some v) w'
  | Returned (Throw _) w' => Returned None w'
  | Aborted => Aborted
  | UndefinedBehavior => UndefinedBehavior
  end.
Proof.
  intros Hs Ho. unfold has_store in Hs.
  unfold GetPrivate, bind, get_world. rewrite Hs.
  unfold exec4, exec, run_snippet, with_object, bind. cbn. rewrite Ho.
  destruct (JSGet _ _ _) as [[v|x] w'| |]; reflexivity.
Qed.

Lemma HasPrivate_with_store (this : nat) (key : JSValue) (w : World) (obj : JSObjectData) :
  has_store this w = true -> heap w !! this = Some obj ->
  finds_hasOwnProperty w this = true ->
  HasPrivate this (Some key) w
  = Returned (Just (bool_decide (is_Some (props obj !! ToPropertyKey key)))) w.
Proof.
  intros Hs Ho Hf. unfold has_store in Hs.
  unfold HasPrivate, bind, get_world. rewrite Hs.
  unfold exec4, exec, run_snippet, with_object, bind. cbn -[JSGet JSCall]. rewrite Ho.
  unfold finds_hasOwnProperty in Hf. unfold JSGet.
  destruct (find_property w this (PKString "hasOwnProperty")) as [[method ? ? ?|]|];
    try discriminate.
  destruct method as [| |?|?| |?|?|f]; try discriminate.
  unfold JSCall, JSCall_with.
  destruct (heap w !! f ≫= call) as [[| |]|]; try discriminate.
  unfold GetOwnProperty. rewrite Ho. cbn.
  destruct (bool_decide _); reflexivity.
Qed.

(** Without the method, the snippet throws a TypeError that nobody
    receives, and the answer is false. *)
Lemma HasPrivate_without_method (this : nat) (key : JSValue) (w : World) (obj : JSObjectData) :
  has_store this w = true -> heap w !! this = Some obj ->
  find_property w this (PKString "hasOwnProperty") = None ->
  HasPrivate this (Some key) w = Returned (Just false) w.
Proof.
  intros Hs Ho Hf. unfold has_store in Hs.
  unfold HasPrivate, bind, get_world. rewrite Hs.
  unfold exec4, exec, run_snippet, with_object, bind. cbn -[JSGet JSCall]. rewrite Ho.
  unfold JSGet. rewrite Hf. reflexivity.
Qed.

Lemma find_property_from_keeps (k : PropertyKey) (w w' : World) :
  keeps_lookup k w w' ->
  forall (n : nat) (v : JSValue) (p : Property),
    find_property_from n w v k = Some p ->
    forall m, (n <= m)%nat -> find_property_from m w' v k = Some p.
Proof.
  intros Hkeep. induction n as [|n IH]; intros v p Hfind m Hle; [discriminate|].
  destruct m as [|m]; [lia|].
  cbn [find_property_from] in Hfind |- *.
  destruct v; try discriminate.
  destruct (heap w !! _) as [obj|] eqn:Ho; [|discriminate].
  destruct (Hkeep _ _ Ho) as (obj' & Ho' & Hproto & _ & Hprops).
  rewrite Ho', Hprops, Hproto.
  destruct (props obj !! k); [exact Hfind|].
  apply (IH _ _ Hfind). lia.
Qed.

Lemma finds_hasOwnProperty_keeps (w w' : World) (o : nat) :
  keeps_lookup (PKString "hasOwnProperty") w w' ->
  (size (heap w) <= size (heap w'))%nat ->
  finds_hasOwnProperty w o = true -> finds_hasOwnProperty w' o = true.
Proof.
  intros Hkeep Hsize. unfold finds_hasOwnProperty, find_property.
  destruct (find_property_from _ w _ _) as [p|] eqn:Hfind; [|discriminate].
  rewrite (find_property_from_keeps _ _ _ Hkeep _ _ _ Hfind (S (size (heap w')))) by lia.
  destruct p as [method ? ? ?|]; [|discriminate].
  destruct method as [| |?|?| |?|?|f]; try discriminate.
  destruct (heap w !! f) as [fobj|] eqn:Hf; [|discriminate].
  destruct (Hkeep _ _ Hf) as (fobj' & Hf' & _ & Hcall & _).
  rewrite Hf'. cbn. rewrite Hcall. trivial.
Qed.

Lemma with_store_size (this : nat) (w : World) :
  (size (heap w) <= size (heap (with_store this w)))%nat.
Proof.
  unfold with_store.
  destruct (getPrivateInstance this w ≫= m_private_properties); [lia|].
  cbn [heap]. rewrite map_size_insert_None by apply fresh_not_in_heap. lia.
Qed.

Lemma keeps_lookup_private_write (this : nat) (k k' : PropertyKey) (p : Property) (w : World) :
  k' <> k -> keeps_lookup k (w) (put_property this k' p (with_store this w)).
Proof.
  intros Hne o obj Ho.
  assert (Ho2 : heap (with_store this w) !! o = Some obj).
  { rewrite with_store_heap; [exact Ho|eauto]. }
  destruct (decide (o = this)) as [->|Hother].
  - rewrite (heap_put_property _ _ _ _ _ Ho2). eexists. split; [reflexivity|].
    cbn [proto call props]. rewrite lookup_insert_ne by exact Hne. repeat split.
  - exists obj. unfold put_property, update_object. cbn [heap set_heap].
    rewrite lookup_alter_ne by congruence. rewrite Ho2. repeat split.
Qed.

Lemma DeletePrivate_with_store (this : nat) (key : JSValue) (w : World) (obj : JSObjectData) :
  has_store this w = true -> heap w !! this = Some obj ->
  DeletePrivate this (Some key) w
  = Returned (Just true) (snd (JSDelete this (ToPropertyKey key) w)).
Proof.
  intros Hs Ho. unfold has_store in Hs.
  unfold DeletePrivate, bind, get_world. rewrite Hs.
  unfold exec, run_snippet, with_object, bind. cbn -[JSDelete]. rewrite Ho.
  destruct (JSDelete _ _ _) as [b w']. reflexivity.
Qed.

(** X14. The private write, then the private read, on an ordinary object
    (no Array and no view of an array buffer) on which the lookup of
    "hasOwnProperty" finds the built-in method: when [k] is not the name
    of that method and the write of [k] is decided by the object alone
    ([k] is a writable data property of it, or it has no property [k], is
    extensible and has the null prototype), [SetPrivate(o, k, v)] returns
    true, and afterwards [GetPrivate(o, k)] returns [v] and
    [HasPrivate(o, k)] returns true. *)
Theorem SetPrivate_then_GetPrivate_and_HasPrivate (this : nat) (key value : JSValue)
  (w : World) :
  ordinary w this = true ->
  finds_hasOwnProperty w this = true ->
  ToPropertyKey key <> PKString "hasOwnProperty" ->
  writes_own_data w this (ToPropertyKey key) = true ->
  exists w1,
    SetPrivate this (Some key) (Some value) w = Returned (Just true) w1
    /\ GetPrivate this (Some key) w1 = Returned (Some value) w1
    /\ HasPrivate this (Some key) w1 = Returned (Just true) w1.
Proof.
  intros _ Hmethod Hname Hplain.
  destruct (SetPrivate_plain this key value w Hplain) as (obj & e & c & Ho2 & _ & Hset).
  eexists. split; [exact Hset|].
  pose proof (heap_put_property this (ToPropertyKey key) (DataProperty value true e c) _ obj Ho2)
    as Hh.
  pose proof (find_property_put this (ToPropertyKey key) (DataProperty value true e c) _ obj Ho2)
    as Hf.
  assert (Hs : has_store this (put_property this (ToPropertyKey key)
                                 (DataProperty value true e c) (with_store this w)) = true)
    by apply (with_store_has this w).
  split.
  - rewrite (GetPrivate_with_store _ _ _ _ Hs Hh). unfold JSGet. rewrite Hf. reflexivity.
  - rewrite (HasPrivate_with_store _ _ _ _ Hs Hh).
    + cbn [props]. rewrite lookup_insert_eq. reflexivity.
    + apply (finds_hasOwnProperty_keeps w); [| |exact Hmethod].
      * apply keeps_lookup_private_write. exact Hname.
      * unfold put_property. rewrite size_update_object. apply with_store_size.
Qed.


(** X16. Once the object has a backing store, the private operations
    read the properties of the object itself: whatever [Get(o, k)]
    returns, [GetPrivate(o, k)] returns the same, so a property written by
    [Set] shows as a private one; and, when the lookup of "hasOwnProperty"
    on the object finds the built-in method, [HasPrivate] answers as
    [HasRealNamedProperty] does. *)
Theorem private_reads_are_object_reads (this : nat) (key v : JSValue) (w w' : World) :
  has_store this w = true ->
  finds_hasOwnProperty w this = true ->
  Get_key this (Some key) w = Returned (Some v) w' ->
  GetPrivate this (Some key) w = Returned (Some v) w'
  /\ HasPrivate this (Some key) w = HasRealNamedProperty this (Some key) w.
Proof.
  intros Hs Hmethod. rewrite Get_key_eq, HasRealNamedProperty_eq.
  destruct (heap w !! this) as [obj|] eqn:Ho; [|discriminate].
  rewrite (HasPrivate_with_store _ _ _ _ Hs Ho Hmethod), (GetPrivate_with_store _ _ _ _ Hs Ho).
  destruct (JSGet _ _ _) as [[v0|x] w0| |]; intros H; try discriminate.
  split; [exact H|reflexivity].
Qed.

(** X17. [DeletePrivate] on an object with a backing store returns true
    whatever the deletion did: a property that is not configurable stays,
    and true is returned all the same. The record and its store are kept. *)
Theorem DeletePrivate_reports_true (this : nat) (key : JSValue) (w : World)
  (obj : JSObjectData) :
  has_store this w = true ->
  heap w !! this = Some obj ->
  exists w',
    DeletePrivate this (Some key) w = Returned (Just true) w'
    /\ GetOwnProperty w' this (ToPropertyKey key)
       = (if deletable (props obj !! ToPropertyKey key) then None
          else props obj !! ToPropertyKey key)
    /\ instances w' = instances w.
Proof.
  intros Hs Ho. rewrite (DeletePrivate_with_store _ _ _ _ Hs Ho).
  eexists. split; [reflexivity|].
  destruct (JSDelete_this this (ToPropertyKey key) w obj Ho) as (objd & Hd & Hkd & _).
  split.
  - unfold GetOwnProperty. rewrite Hd. exact Hkd.
  - unfold JSDelete. destruct (GetOwnProperty w this (ToPropertyKey key)) as [p|]; [|reflexivity].
    destruct (is_configurable p); reflexivity.
Qed.

(** *** The identity hash *)

(** X18. [GetIdentityHash] is stable: the call returns a hash and leaves a
    world in which the next call returns the same hash and changes nothing
    more. It enters a record for an object that has none, and touches
    neither the record of any other object, nor a record that is there
    already, nor the objects, nor the exception state. *)
Theorem GetIdentityHash_is_stable (this : nat) (w : World) :
  exists (h : Z) (w1 : World),
    GetIdentityHash this w = Returned h w1
    /\ GetIdentityHash this w1 = Returned h w1
    /\ (m_hash <$> getPrivateInstance this w1) = Some h
    /\ (forall wrap, getPrivateInstance this w = Some wrap -> w1 = w /\ h = m_hash wrap)
    /\ (forall o, o <> this -> getPrivateInstance o w1 = getPrivateInstance o w)
    /\ heap w1 = heap w
    /\ isolate w1 = isolate w.
Proof.
  unfold GetIdentityHash, bind, get_world, ret, makePrivateInstance.
  destruct (getPrivateInstance this w) as [wrap|] eqn:Hw.
  - exists (m_hash wrap), w. rewrite Hw. repeat split; congruence.
  - eexists _, _. split; [reflexivity|].
    unfold getPrivateInstance. cbn [instances set_instances heap isolate].
    rewrite lookup_insert_eq. repeat split; try discriminate.
    intros o Ho. apply lookup_insert_ne. congruence.
Qed.

(** *** New objects and prototypes *)

(** X19. [Object::New] returns an object that did not exist before. The
    new object has no own property, so [HasRealNamedProperty] answers
    false for every key, and its prototype is the object prototype of the
    context. The objects that existed, the records and the exception state
    stay as they were. *)
Theorem New_returns_a_fresh_object (w : World) :
  exists (r : nat) (w' : World),
    New w = Returned (Some (JSObject r)) w'
    /\ heap w !! r = None
    /\ (forall key, HasRealNamedProperty r (Some key) w' = Returned (Just false) w')
    /\ GetPrototype r w' = Returned (Some (object_prototype w)) w'
    /\ (forall o, o <> r -> heap w' !! o = heap w !! o)
    /\ instances w' = instances w
    /\ isolate w' = isolate w.
Proof.
  unfold New. rewrite heap_JSObjectMake.
  eexists _, _. split; [reflexivity|].
  split; [apply fresh_not_in_heap|].
  assert (Hr : heap (set_heap (<[fresh (dom (heap w))
                                 := mkObject ∅ (object_prototype w) true None]> (heap w)) w)
               !! fresh (dom (heap w))
               = Some (mkObject ∅ (object_prototype w) true None))
    by apply lookup_insert_eq.
  split.
  { intros key. rewrite HasRealNamedProperty_eq, Hr. cbn [props]. rewrite lookup_empty.
    reflexivity. }
  split.
  { rewrite GetPrototype_eq. unfold prototype_of. rewrite Hr. reflexivity. }
  split; [|split; reflexivity].
  intros o Ho. cbn [heap set_heap]. apply lookup_insert_ne. congruence.
Qed.




(** *** Instances and template lineage *)

Lemma template_chain_has_lineage (x : TemplateImpl) :
  forall t, x ∈ template_lineage t -> template_chain_has t x = true.
Proof.
  fix IH 1. intros [a p] Hin. cbn [template_lineage] in Hin. cbn [template_chain_has].
  apply elem_of_cons in Hin as [Heq|Hin].
  - rewrite Heq. cbn [address_of]. rewrite Nat.eqb_refl. reflexivity.
  - destruct (Nat.eqb a (address_of x)); [reflexivity|].
    destruct p as [t'|]; [apply IH, Hin|inversion Hin].
Qed.

(** X22. An object made from a template is found as an instance of that
    template and of every template it inherits from: when the searched
    template is in the lineage of the constructor template of the
    receiver, [FindInstanceInPrototypeChain] returns the receiver at the
    first step, whatever its prototype chain is. *)
Theorem FindInstanceInPrototypeChain_finds_receiver (this : nat) (tmpl : TemplateImpl)
  (w : World) (fuel : nat) (wrap : InstanceWrap) (object_template : ObjectTemplateImpl)
  (t : TemplateImpl) :
  getPrivateInstance this w = Some wrap ->
  m_object_template wrap = Some object_template ->
  m_constructor_template object_template = Some t ->
  tmpl ∈ template_lineage t ->
  fuel <> O ->
  FindInstanceInPrototypeChain fuel this tmpl w = Returned (Some (Some (JSObject this))) w.
Proof.
  intros Hw Hot Hct Hin Hfuel. destruct fuel as [|n]; [contradiction|].
  unfold FindInstanceInPrototypeChain. cbn [FindInstance_loop].
  unfold bind, get_world, instance_of. rewrite Hw, Hot, Hct.
  rewrite (template_chain_has_lineage tmpl t Hin). reflexivity.
Qed.

(** *** Internal fields *)

Lemma SetInternalField_eq (this : nat) (index : Z) (value : option JSValue) (w : World)
  (wrap : InstanceWrap) :
  getPrivateInstance this w = Some wrap ->
  fields_allocated wrap ->
  0 <= index < m_num_internal_fields wrap ->
  SetInternalField this index value w
  = Returned tt
      (set_instances
         (<[this := mkInstanceWrap (m_num_internal_fields wrap)
                      (<[Z.to_nat index := value]> (m_internal_fields wrap))
                      (m_private_properties wrap) (m_object_template wrap) (m_hash wrap)]>
            (instances w)) w).
Proof.
  intros Hw Hal Hr. unfold fields_allocated in Hal.
  unfold SetInternalField, bind, get_world, ret. rewrite Hw.
  destruct (index <? m_num_internal_fields wrap) eqn:Hlt; [|lia].
  destruct (array_cell_in_range (m_internal_fields wrap) index) as [x Hx]; [lia|].
  rewrite Hx. reflexivity.
Qed.

(** X23. Writes of internal fields compose. For a record with its slot
    array allocated and two different indices in range: two writes of the
    same field leave what the second alone leaves (the last write wins),
    and the writes of the two fields leave the same world in either order. *)
Theorem SetInternalField_writes_compose (this : nat) (i j : Z) (v1 v2 : Local) (w : World)
  (wrap : InstanceWrap) :
  getPrivateInstance this w = Some wrap ->
  fields_allocated wrap ->
  0 <= i < m_num_internal_fields wrap ->
  0 <= j < m_num_internal_fields wrap ->
  i <> j ->
  exists w1 w2 w12,
    SetInternalField this i v1 w = Returned tt w1
    /\ SetInternalField this j v2 w = Returned tt w2
    /\ SetInternalField this j v2 w1 = Returned tt w12
    /\ SetInternalField this i v1 w2 = Returned tt w12
    /\ SetInternalField this i v1 w1 = Returned tt w1
    /\ world_after (let* _ := SetInternalField this i v2 in SetInternalField this i v1) w = w1.
Proof.
  intros Hw Hal Hi Hj Hne.
  assert (Hstep : forall (idx : Z) (v : option JSValue),
             0 <= idx < m_num_internal_fields wrap ->
             let wrap' := mkInstanceWrap (m_num_internal_fields wrap)
                            (<[Z.to_nat idx := v]> (m_internal_fields wrap))
                            (m_private_properties wrap) (m_object_template wrap)
                            (m_hash wrap) in
             let w' := set_instances (<[this := wrap']> (instances w)) w in
             getPrivateInstance this w' = Some wrap' /\ fields_allocated wrap').
  { intros idx v Hidx. split.
    - unfold getPrivateInstance. cbn [instances set_instances]. apply lookup_insert_eq.
    - unfold fields_allocated in *. cbn [m_internal_fields m_num_internal_fields].
      rewrite length_insert. exact Hal. }
  destruct (Hstep i v1 Hi) as [Hw1 Hal1]. destruct (Hstep j v2 Hj) as [Hw2 Hal2].
  destruct (Hstep i v2 Hi) as [Hw3 Hal3].
  eexists _, _, _.
  split; [apply (SetInternalField_eq this i v1 w wrap Hw Hal Hi)|].
  split; [apply (SetInternalField_eq this j v2 w wrap Hw Hal Hj)|].
  split; [apply (SetInternalField_eq this j v2 _ _ Hw1 Hal1 Hj)|].
  split; [|split].
  - rewrite (SetInternalField_eq this i v1 _ _ Hw2 Hal2 Hi).
    cbn [m_num_internal_fields m_internal_fields m_private_properties m_object_template m_hash
         instances set_instances].
    unfold set_instances. cbn [heap object_prototype isolate instances].
    rewrite !insert_insert_eq.
    rewrite (list_insert_insert_ne _ (Z.to_nat i) (Z.to_nat j)) by lia. reflexivity.
  - rewrite (SetInternalField_eq this i v1 _ _ Hw1 Hal1 Hi).
    cbn [m_num_internal_fields m_internal_fields m_private_properties m_object_template m_hash
         instances set_instances].
    unfold set_instances. cbn [heap object_prototype isolate instances].
    rewrite insert_insert_eq, list_insert_insert_eq. reflexivity.
  - unfold world_after, bind. rewrite (SetInternalField_eq this i v2 w wrap Hw Hal Hi).
    rewrite (SetInternalField_eq this i v1 _ _ Hw3 Hal3 Hi).
    cbn [m_num_internal_fields m_internal_fields m_private_properties m_object_template m_hash
         instances set_instances].
    unfold set_instances. cbn [heap object_prototype isolate instances].
    rewrite insert_insert_eq, list_insert_insert_eq. reflexivity.
Qed.

(** X24. Reading an internal field at the edges. For a record with its
    slot array allocated: a field from the count on reads as the empty
    handle; a field in which the empty handle has been written reads as
    undefined; and a negative index, which passes the guard of the read as
    it passes that of the write, leaves the slot array. *)
Theorem SlowGetInternalField_edges (this : nat) (beyond inside below : Z) (w : World)
  (wrap : InstanceWrap) :
  getPrivateInstance this w = Some wrap ->
  fields_allocated wrap ->
  m_num_internal_fields wrap <= beyond ->
  0 <= inside < m_num_internal_fields wrap ->
  below < 0 ->
  SlowGetInternalField this beyond w = Returned None w
  /\ (exists w', SetInternalField this inside None w = Returned tt w'
                 /\ SlowGetInternalField this inside w' = Returned Undefined w')
  /\ SlowGetInternalField this below w = UndefinedBehavior.
Proof.
  intros Hw Hal Hge Hr Hneg. split; [|split].
  - unfold SlowGetInternalField, bind, get_world. rewrite Hw.
    destruct (beyond <? m_num_internal_fields wrap) eqn:Hlt; [lia|reflexivity].
  - eexists. split; [apply (SetInternalField_eq this inside None w wrap Hw Hal Hr)|].
    unfold SlowGetInternalField, bind, get_world, getPrivateInstance.
    cbn [instances set_instances]. rewrite lookup_insert_eq.
    cbn [m_num_internal_fields m_internal_fields].
    destruct (inside <? m_num_internal_fields wrap) eqn:Hlt; [|lia].
    rewrite array_cell_written; [reflexivity|]. unfold fields_allocated in Hal. lia.
  - unfold SlowGetInternalField, bind, get_world. rewrite Hw.
    unfold fields_allocated in Hal.
    destruct (below <? m_num_internal_fields wrap) eqn:Hlt; [|lia].
    unfold array_cell. destruct (below <? 0) eqn:H0; [reflexivity|lia].
Qed.

(** *** What [Set] reports *)




(** *** Installing an accessor, then using it *)



End Composition.

(** ** Properties of the constructor name *)

Section ConstructorNameProperties.

Context {embedder : Embedder}.

Variable ToString : JSValueRef -> M Local.

Lemma JSObjectGetProperty_data (o : nat) (name : string) (w : World)
  (v : JSValue) (wr e c : bool) :
  find_property w o (PKString name) = Some (DataProperty v wr e c) ->
  JSObjectGetProperty o name w = Returned (Some v, None) w.
Proof.
  intros Hf. unfold JSObjectGetProperty, bind, JSGet. rewrite Hf. reflexivity.
Qed.

(** X27. [GetConstructorName] through data properties: when the lookup
    of "constructor" from the object ends at a data property that holds an
    object, and the lookup of "name" from that object ends at a data
    property, the result is the string conversion of that name, run in a
    world that the two reads have not changed. *)
Theorem GetConstructorName_reads_the_name (this ctor : nat) (w : World)
  (vname : JSValue) (wr e c wr' e' c' : bool) :
  find_property w this (PKString "constructor") = Some (DataProperty (JSObject ctor) wr e c) ->
  find_property w ctor (PKString "name") = Some (DataProperty vname wr' e' c') ->
  GetConstructorName ToString this w = ToString (Some vname) w.
Proof.
  intros Hf Hn. unfold GetConstructorName, bind, assert.
  rewrite (JSObjectGetProperty_data this "constructor" w _ wr e c Hf).
  rewrite bool_decide_eq_true_2 by reflexivity. cbv beta iota. cbn [JSValueIsObject].
  rewrite (JSObjectGetProperty_data ctor "name" w vname wr' e' c' Hn).
  rewrite bool_decide_eq_true_2 by reflexivity. reflexivity.
Qed.

(** X28. [GetConstructorName] stops the process when reading
    "constructor" raises: if the lookup ends at an accessor whose getter is
    an accessor function of [SetAccessor], and the getter callback raises
    an exception, the assertion on the exception out-parameter fails. *)
Theorem GetConstructorName_aborts_on_exception (this : nat) (w : World)
  (fobj : JSObjectData) (f : nat) (s : option nat) (e c : bool)
  (wrap : AccessorInfo) (g : nat) (x : JSValue) :
  find_property w this (PKString "constructor") = Some (AccessorProperty (Some f) s e c) ->
  heap w !! f = Some fobj ->
  call fobj = Some (CallAccessor wrap) ->
  getter wrap = Some g ->
  exception_raised
    (fst (call_getter g (m_property wrap)
            (mkInfo (Some (JSObject this)) (m_data wrap) (Some (JSObject this)))
            (TryCatch_enter (set_scheduled_exception None w)))) = Some x ->
  GetConstructorName ToString this w = Aborted.
Proof.
  intros Hfind Hf Hcall Hg Hx.
  unfold GetConstructorName, bind, JSObjectGetProperty, bind, JSGet. rewrite Hfind.
  unfold JSCall, JSCall_with. rewrite Hf. cbn [mbind option_bind]. rewrite Hcall.
  unfold bind. cbn [map]. rewrite (callback_getter_eq wrap this w g Hg). cbv zeta.
  rewrite Hx. reflexivity.
Qed.

End ConstructorNameProperties.

(** ** The properties at work *)

#[local] Existing Instance example_embedder.

(** The hypothesis of [Set_index_exception_gives_Just_false] is met when
    the index names an accessor whose setter callback schedules an
    exception: the host reports "boom", and [Set] returns [Just false]. *)
Lemma Set_index_exception_witness :
  Set_index 0%nat 0 (Some (JSNumber 1)) throwing_setter_world
  = Returned (Just false)
             (world_after (JSObjectSetProperty 0%nat (ndx 0) (Some (JSNumber 1)))
                          throwing_setter_world).
Proof.
  apply (Set_index_exception_gives_Just_false
           0%nat 0 (Some (JSNumber 1)) throwing_setter_world (JSString "boom")).
  vm_compute. reflexivity.
Defined.

(** The same write by name returns [Nothing], and the exception is
    pending in the isolate afterwards. *)
Example Set_key_exception_example :
  returned (Set_key 0%nat (Some (JSNumber 0)) (Some (JSNumber 1)) throwing_setter_world)
  = Some Nothing
  /\ scheduled_exception_
       (isolate (world_after (Set_key 0%nat (Some (JSNumber 0)) (Some (JSNumber 1)))
                             throwing_setter_world))
     = Some (JSString "boom")
  /\ scheduled_exception_
       (isolate (world_after (Set_index 0%nat 0 (Some (JSNumber 1)))
                             throwing_setter_world))
     = None.
Proof. vm_compute. repeat split. Qed.



(** C3 fails as stated: [HasRealNamedProperty] does not abort, it answers. *)
Lemma HasRealNamedProperty_answers :
  HasRealNamedProperty 0%nat (Some (JSString "a")) one_object
  = Returned (Just false) one_object
  /\ invoke_aborts OpHasRealNamedProperty 0%nat (Some (JSString "a")) None 0 one_object
     = false
  /\ HasRealIndexedProperty 0%nat 0 throwing_setter_world
     = Returned (Just true) throwing_setter_world.
Proof. vm_compute. repeat split. Qed.

(** A first private write on the fresh object: the hypotheses of
    [SetPrivate_writes_on_the_object] hold there. *)
Lemma SetPrivate_writes_on_the_object_witness :
  exists (w' : World) (store : nat) (wrap : InstanceWrap) (o' : JSObjectData) (e c : bool),
    SetPrivate 0%nat (Some (JSString "secret")) (Some (JSNumber 42)) one_object
    = Returned (Just true) w'
    /\ heap one_object !! store = None
    /\ getPrivateInstance 0%nat w' = Some wrap
    /\ m_private_properties wrap = Some store
    /\ (exists s', heap w' !! store = Some s' /\ props s' = ∅)
    /\ heap w' !! 0%nat = Some o'
    /\ props o' !! ToPropertyKey (JSString "secret")
       = Some (DataProperty (JSNumber 42) true e c)
    /\ (forall s, ToPropertyKey (JSString "secret") = PKString s ->
        exists names w'',
          GetOwnPropertyNames 0%nat w' = Returned names w''
          /\ JSString s ∈ array_elements w'' names).
Proof.
  apply (SetPrivate_writes_on_the_object 0%nat (JSString "secret") (JSNumber 42) one_object).
  - vm_compute. reflexivity.
  - vm_compute. reflexivity.
Defined.

(** The whole scenario of C4: a fresh object, one private write, and the
    public operations afterwards. The private key is listed by
    [GetOwnPropertyNames], [Get] and [Has] see the value, and the backing
    store, the object at 1, is empty. *)
Example private_property_is_public :
  returned ((let* _ := SetPrivate 0%nat (Some (JSString "secret")) (Some (JSNumber 42)) in
             let* names := GetOwnPropertyNames 0%nat in
             let* w := get_world in
             let* value := Get_key 0%nat (Some (JSString "secret")) in
             let* has := Has_key 0%nat (Some (JSString "secret")) in
             ret (array_elements w names, value, has,
                  getPrivateInstance 0%nat w ≫= m_private_properties,
                  props <$> heap w !! 1%nat)) one_object)
  = Some ([JSString "secret"], Some (JSNumber 42), Just true, Some 1%nat, Some ∅).
Proof. vm_compute. reflexivity. Qed.

(** A private key that is a symbol is not listed, but it is an own
    property of the object all the same, and the backing store is empty. *)
Example private_symbol_is_own_property :
  returned ((let* _ := SetPrivate 0%nat (Some (JSSymbol 5)) (Some (JSNumber 42)) in
             let* names := GetOwnPropertyNames 0%nat in
             let* w := get_world in
             ret (array_elements w names,
                  GetOwnProperty w 0%nat (PKSymbol 5),
                  props <$> heap w !! 1%nat)) one_object)
  = Some ([], Some (DataProperty (JSNumber 42) true true true), Some ∅).
Proof. vm_compute. reflexivity. Qed.

(** C5 fails as stated: with "pending" scheduled before the call and a
    getter that raises nothing, the handler returns the getter's value,
    reports no exception, and leaves the cell empty: the pending exception
    is gone. *)
Lemma callback_drops_pending_exception :
  scheduled_exception_ (isolate pending_world) = Some (JSString "pending")
  /\ callback getter_info 0%nat [] pending_world
     = Returned (Some (JSNumber 7), None) one_object
  /\ scheduled_exception_ (isolate one_object) = None.
Proof. vm_compute. repeat split. Qed.

(** [callback_clears_and_does_not_restore] at the same call: it runs as
    from the world without the pending exception. *)
Lemma callback_clears_and_does_not_restore_witness :
  let frame := mkInfo (Some (JSObject 0%nat)) (m_data getter_info) (Some (JSObject 0%nat)) in
  let start := TryCatch_enter (set_scheduled_exception None one_object) in
  callback getter_info 0%nat [] one_object = Returned (Some (JSNumber 7), None) one_object
  /\ (snd (Some (JSNumber 7), @None JSValue) = None ->
      scheduled_exception_ (isolate one_object) = None)
  /\ (forall g, @nil (option JSValue) = [] -> getter getter_info = Some g ->
       let called := fst (call_getter g (m_property getter_info) frame start) in
       snd (Some (JSNumber 7), @None JSValue) = exception_raised called
       /\ scheduled_exception_ (isolate one_object)
          = (if TryCatch_HasCaught called then scheduled_exception_ (isolate called)
             else None)
       /\ exceptions_in_flight (snd (Some (JSNumber 7), @None JSValue)) one_object
          = exceptions_left called
       /\ ((exceptions_left called <= 1)%nat ->
           (exceptions_in_flight (snd (Some (JSNumber 7), @None JSValue)) one_object <= 1)%nat))
  /\ (forall s a0 rest, [] = a0 :: rest -> setter getter_info = Some s ->
       let called := call_setter s (m_property getter_info) a0 frame start in
       snd (Some (JSNumber 7), @None JSValue) = exception_raised called
       /\ scheduled_exception_ (isolate one_object)
          = (if TryCatch_HasCaught called then scheduled_exception_ (isolate called)
             else None)
       /\ exceptions_in_flight (snd (Some (JSNumber 7), @None JSValue)) one_object
          = exceptions_left called
       /\ ((exceptions_left called <= 1)%nat ->
           (exceptions_in_flight (snd (Some (JSNumber 7), @None JSValue)) one_object <= 1)%nat)).
Proof.
  apply (callback_clears_and_does_not_restore
           getter_info 0%nat [] (Some (JSString "pending")) one_object).
  vm_compute. reflexivity.
Defined.

(** The exceptions in flight after the call are those the callback left,
    and no fewer: a getter that raises in the catch scope and schedules a
    second exception leaves the handler with one in the out-parameter and
    one in the cell. *)
Example callback_hands_over_one_of_two :
  match callback (embedder := twice_raising_embedder) getter_info 0%nat [] pending_world with
  | Returned r w => Some (snd r, scheduled_exception_ (isolate w), exceptions_in_flight (snd r) w)
  | _ => None
  end
  = Some (Some (JSString "thrown"), Some (JSString "scheduled"), 2%nat).
Proof. vm_compute. reflexivity. Qed.

(** An exception the setter callback schedules is handed to the host, and
    the cell is empty afterwards. *)
Example callback_hands_exception_to_host :
  returned (callback (mkAccessorInfo None (Some 3%nat) (Some (JSString "0")) (Some JSUndefined))
                     0%nat [Some (JSNumber 1)] pending_world)
  = Some (Some JSUndefined, Some (JSString "boom"))
  /\ world_after (callback (mkAccessorInfo None (Some 3%nat) (Some (JSString "0"))
                                           (Some JSUndefined))
                           0%nat [Some (JSNumber 1)]) pending_world
     = one_object.
Proof. vm_compute. split; reflexivity. Qed.



(** The deletion comes first: a data property of the name, enumerable
    before, is replaced by an accessor that is not enumerable. *)
Example SetAccessor_replaces_data_property :
  returned ((let* _ := Set_key 0%nat (Some (JSString "x")) (Some (JSNumber 1)) in
             let* w1 := get_world in
             let* _ := SetAccessor 0%nat (Some (JSString "x")) (Some 1%nat) (Some 2%nat) None in
             let* w2 := get_world in
             ret (GetOwnProperty w1 0%nat (PKString "x"),
                  GetOwnProperty w2 0%nat (PKString "x"))) one_object)
  = Some (Some (DataProperty (JSNumber 1) true true true),
          Some (AccessorProperty (Some 1%nat) (Some 1%nat) false true)).
Proof. vm_compute. reflexivity. Qed.

(** The fresh object has no record, hence no backing store. *)
Lemma private_operations_without_store_witness :
  HasPrivate 0%nat (Some (JSString "secret")) one_object = Returned (Just false) one_object
  /\ GetPrivate 0%nat (Some (JSString "secret")) one_object = Returned Undefined one_object
  /\ DeletePrivate 0%nat (Some (JSString "secret")) one_object
     = Returned (Just false) one_object.
Proof.
  apply (private_operations_without_store 0%nat (Some (JSString "secret")) one_object).
  vm_compute. reflexivity.
Defined.

(** The index -1 on a record with one field: it is below the count, and
    the write leaves the slot array. *)
Example negative_index_leaves_the_array :
  InternalFieldCount 0%nat one_field_world = Returned 1 one_field_world
  /\ -1 < 1
  /\ SetInternalField 0%nat (-1) (Some (JSNumber 5)) one_field_world = UndefinedBehavior.
Proof. split; [|split]; [vm_compute; reflexivity|lia|vm_compute; reflexivity]. Qed.

(** [internal_field_write_then_read] on the record with one field: field
    0, the index 1 beyond the count, and the index -1. *)
Lemma internal_field_write_then_read_witness :
  InternalFieldCount 0%nat one_field_world
  = Returned (m_num_internal_fields one_field_record) one_field_world
  /\ (exists w',
        SetInternalField 0%nat 0 (Some (JSNumber 5)) one_field_world = Returned tt w'
        /\ SlowGetInternalField 0%nat 0 w' = Returned (Some (JSNumber 5)) w'
        /\ InternalFieldCount 0%nat w' = Returned (m_num_internal_fields one_field_record) w'
        /\ forall j, j <> 0 ->
             returned (SlowGetInternalField 0%nat j w')
             = returned (SlowGetInternalField 0%nat j one_field_world))
  /\ SetInternalField 0%nat 1 (Some (JSNumber 5)) one_field_world
     = Returned tt one_field_world
  /\ -1 < m_num_internal_fields one_field_record
  /\ SetInternalField 0%nat (-1) (Some (JSNumber 5)) one_field_world = UndefinedBehavior.
Proof.
  apply (internal_field_write_then_read 0%nat 0 1 (-1) (JSNumber 5) one_field_world
           one_field_record).
  - reflexivity.
  - reflexivity.
  - cbn. lia.
  - cbn. lia.
  - lia.
Defined.

(** The write, the reads and the write out of range, run. *)
Example internal_field_example :
  returned ((let* _ := SetInternalField 0%nat 0 (Some (JSNumber 5)) in
             let* a := SlowGetInternalField 0%nat 0 in
             let* w1 := get_world in
             let* _ := SetInternalField 0%nat 1 (Some (JSNumber 6)) in
             let* w2 := get_world in
             let* b := SlowGetInternalField 0%nat 1 in
             ret (a, b,
                  m_internal_fields <$> getPrivateInstance 0%nat w1,
                  m_internal_fields <$> getPrivateInstance 0%nat w2)) one_field_world)
  = Some (Some (JSNumber 5), None, Some [Some (JSNumber 5)], Some [Some (JSNumber 5)]).
Proof. vm_compute. reflexivity. Qed.

(** The chain of three objects is finite: three steps reach null. *)
Lemma FindInstanceInPrototypeChain_witness :
  FindInstanceInPrototypeChain 4 0%nat base_template chain_world
  = Returned (Some (first_instance chain_world base_template [0%nat; 1%nat; 2%nat]))
             chain_world.
Proof.
  apply (FindInstanceInPrototypeChain_finds_first
           0%nat base_template chain_world 3 [0%nat; 1%nat; 2%nat] 4).
  - vm_compute. reflexivity.
  - lia.
Defined.

(** The walk finds the object at 1 for the base template (through the
    parent link of the derived template) and for the derived one, and
    nothing for a template that is not in any chain. *)
Example FindInstanceInPrototypeChain_example :
  returned (FindInstanceInPrototypeChain 4 0%nat base_template chain_world)
  = Some (Some (Some (JSObject 1%nat)))
  /\ returned (FindInstanceInPrototypeChain 4 2%nat base_template chain_world)
     = Some (Some (Some (JSObject 2%nat)))
  /\ returned (FindInstanceInPrototypeChain 4 2%nat derived_template chain_world)
     = Some (Some None)
  /\ returned (FindInstanceInPrototypeChain 4 0%nat (mkTemplate 12%nat None) chain_world)
     = Some (Some None).
Proof. vm_compute. repeat split. Qed.

(** The first scenario of the specification: on a fresh object,
    [Set(o, "a", 1)] succeeds, [Get(o, "a")] is 1, the attributes of "a"
    are None, [Delete(o, "a")] is true, and [Has(o, "a")] is false then. *)
Example scenario_named :
  returned ((let* set := Set_key 0%nat (Some (JSString "a")) (Some (JSNumber 1)) in
             let* get := Get_key 0%nat (Some (JSString "a")) in
             let* attributes := GetPropertyAttributes 0%nat (Some (JSString "a")) in
             let* deleted := Delete_key 0%nat (Some (JSString "a")) in
             let* has := Has_key 0%nat (Some (JSString "a")) in
             let* get' := Get_key 0%nat (Some (JSString "a")) in
             ret (set, get, attributes, deleted, has, get')) one_object)
  = Some (Just true, Some (JSNumber 1), Just 0, Just true, Just false, Some JSUndefined).
Proof. vm_compute. reflexivity. Qed.

(** The second scenario of the specification: [Set(o, 0, "x")],
    [Set(o, 1, "y")]; then [Has(o, 0)] is true, [Delete(o, 1)] is true and
    [Has(o, 1)] is false. *)
Example scenario_indexed :
  returned ((let* _ := Set_index 0%nat 0 (Some (JSString "x")) in
             let* _ := Set_index 0%nat 1 (Some (JSString "y")) in
             let* has0 := Has_index 0%nat 0 in
             let* deleted := Delete_index 0%nat 1 in
             let* has1 := Has_index 0%nat 1 in
             let* names := GetPropertyNames 0%nat in
             let* w := get_world in
             ret (has0, deleted, has1, array_elements w names)) one_object)
  = Some (Just true, Just true, Just false, [JSString "0"]).
Proof. vm_compute. reflexivity. Qed.

(** A write that the object refuses is no failure of [Set] either: on a
    read-only property [Set] returns [Just true], and [Get] returns the
    old value. *)
Example Set_on_read_only_property :
  returned ((let* set := Set_key 0%nat (Some (JSString "r")) (Some (JSNumber 1)) in
             let* get := Get_key 0%nat (Some (JSString "r")) in
             ret (set, get)) read_only_world)
  = Some (Just true, Some (JSNumber 0)).
Proof. vm_compute. reflexivity. Qed.

(** An ArrayBuffer without a record: the field count reads 0, yet the
    write of field 0 enters the record and sets the field. *)
Example array_buffer_field_beyond_count :
  returned ((let* n := InternalFieldCount (embedder := buffer_embedder) 0%nat in
             let* _ := SetInternalField (embedder := buffer_embedder) 0%nat 0
                         (Some (JSNumber 5)) in
             let* field := SlowGetInternalField 0%nat 0 in
             ret (n, field)) one_object)
  = Some (0, Some (JSNumber 5)).
Proof. vm_compute. reflexivity. Qed.

(** The identity hash is the same on repeated calls, and not zero. *)
Example identity_hash_is_stable :
  returned ((let* a := GetIdentityHash 0%nat in
             let* b := GetIdentityHash 0%nat in
             ret (a, b)) one_object)
  = Some (1, 1).
Proof. vm_compute. reflexivity. Qed.

(** ** The further properties at work *)

Lemma indexed_operations_are_named_ones_witness :
  Get_index 0%nat 4294967295 plain_world
  = Get_key 0%nat (Some (JSNumber (as_int32 4294967295))) plain_world
  /\ Has_index 0%nat 4294967295 plain_world
     = Has_key 0%nat (Some (JSNumber (as_int32 4294967295))) plain_world
  /\ Delete_index 0%nat 4294967295 plain_world
     = Delete_key 0%nat (Some (JSNumber (as_int32 4294967295))) plain_world.
Proof.
  apply (indexed_operations_are_named_ones 0%nat 4294967295 plain_world plain_object).
  reflexivity.
Defined.

Lemma Set_index_then_Get_and_Has_witness :
  exists w1,
    Set_index 0%nat 5 (Some (JSString "x")) one_object = Returned (Just true) w1
    /\ Get_index 0%nat 5 w1 = Returned (Some (JSString "x")) w1
    /\ Has_index 0%nat 5 w1 = Returned (Just true) w1.
Proof.
  apply (Set_index_then_Get_and_Has 0%nat 5 (JSString "x") one_object).
  - vm_compute. reflexivity.
  - vm_compute. reflexivity.
Defined.


(** The index 4294967295 is written under the name "-1", where
    [HasRealIndexedProperty] does not look. *)
Example large_index_is_written_under_a_negative_name :
  returned ((let* _ := Set_index 0%nat 4294967295 (Some (JSNumber 1)) in
             let* names := GetOwnPropertyNames 0%nat in
             let* w := get_world in
             let* real := HasRealIndexedProperty 0%nat 4294967295 in
             let* has := Has_index 0%nat 4294967295 in
             ret (array_elements w names, real, has)) one_object)
  = Some ([JSString "-1"], Just false, Just true).
Proof. vm_compute. reflexivity. Qed.



Lemma HasRealNamedProperty_implies_Has_witness :
  plain_world = plain_world
  /\ is_Some (GetOwnProperty plain_world 0%nat (ToPropertyKey (JSString "a")))
  /\ Has_key 0%nat (Some (JSString "a")) plain_world = Returned (Just true) plain_world.
Proof.
  apply (HasRealNamedProperty_implies_Has 0%nat (JSString "a") plain_world plain_world).
  vm_compute. reflexivity.
Defined.

Lemma GetOwnPropertyNames_lists_own_string_keys_witness :
  exists (a : nat) (w' : World),
    GetOwnPropertyNames 0%nat plain_world = Returned (Some (JSObject a)) w'
    /\ heap plain_world !! a = None
    /\ (forall v, v ∈ array_elements w' (Some (JSObject a))
                  <-> exists s, v = JSString s /\ is_Some (props plain_object !! PKString s))
    /\ NoDup (array_elements w' (Some (JSObject a)))
    /\ (forall o, is_Some (heap plain_world !! o) -> heap w' !! o = heap plain_world !! o)
    /\ isolate w' = isolate plain_world.
Proof.
  apply (GetOwnPropertyNames_lists_own_string_keys 0%nat plain_world plain_object).
  reflexivity.
Defined.

Lemma GetPropertyNames_lists_enumerable_lookups_witness :
  exists (a : nat) (w' : World),
    GetPropertyNames 0%nat inherit_world = Returned (Some (JSObject a)) w'
    /\ heap inherit_world !! a = None
    /\ (forall v, v ∈ array_elements w' (Some (JSObject a))
                  <-> exists s p, v = JSString s
                                  /\ find_property inherit_world 0%nat (PKString s) = Some p
                                  /\ is_enumerable p = true)
    /\ (forall o, is_Some (heap inherit_world !! o) -> heap w' !! o = heap inherit_world !! o)
    /\ isolate w' = isolate inherit_world.
Proof.
  apply (GetPropertyNames_lists_enumerable_lookups 0%nat inherit_world
           (mkObject ∅ (JSObject 1%nat) true None)).
  reflexivity.
Defined.

(** A name inherited over two prototype links is listed by
    [GetPropertyNames], and not by [GetOwnPropertyNames]. *)
Example inherited_name_is_listed :
  returned ((let* names := GetPropertyNames 0%nat in
             let* w1 := get_world in
             let* own := GetOwnPropertyNames 0%nat in
             let* w2 := get_world in
             ret (array_elements w1 names, array_elements w2 own)) inherit_world)
  = Some ([JSString "p"], []).
Proof. vm_compute. reflexivity. Qed.


(** An accessor with a setter reads as ReadOnly and DontEnum. *)
Example accessor_reads_as_read_only :
  returned (GetPropertyAttributes 0%nat (Some (JSString "x")) setter_only_world)
  = Some (Just 3).
Proof. vm_compute. reflexivity. Qed.




Lemma SetAccessor_refused_witness :
  exists w',
    SetAccessor 0%nat (Some (JSString "f")) (Some 1%nat) None None fixed_world
    = Returned Nothing w'
    /\ GetOwnProperty w' 0%nat (ToPropertyKey (JSString "f"))
       = (if deletable (props fixed_object !! ToPropertyKey (JSString "f")) then None
          else props fixed_object !! ToPropertyKey (JSString "f"))
    /\ isolate w' = isolate fixed_world.
Proof.
  apply (SetAccessor_refused 0%nat (JSString "f") (Some 1%nat) None None fixed_world fixed_object).
  - reflexivity.
  - left. vm_compute. reflexivity.
Defined.

(** [SetAccessor] without a callback fails, and the data property it was
    to replace is gone. *)
Example SetAccessor_without_callbacks_deletes :
  returned ((let* r := SetAccessor 0%nat (Some (JSString "a")) None None None in
             let* has := HasRealNamedProperty 0%nat (Some (JSString "a")) in
             let* w := get_world in
             ret (r, has, isolate w)) plain_world)
  = Some (Nothing, Just false, mkIsolate None []).
Proof. vm_compute. reflexivity. Qed.

Lemma SetPrivate_then_GetPrivate_and_HasPrivate_witness :
  exists w1,
    SetPrivate 2%nat (Some (JSString "secret")) (Some (JSNumber 42)) standard_world
    = Returned (Just true) w1
    /\ GetPrivate 2%nat (Some (JSString "secret")) w1 = Returned (Some (JSNumber 42)) w1
    /\ HasPrivate 2%nat (Some (JSString "secret")) w1 = Returned (Just true) w1.
Proof.
  apply (SetPrivate_then_GetPrivate_and_HasPrivate 2%nat (JSString "secret") (JSNumber 42)
           standard_world).
  - vm_compute. reflexivity.
  - vm_compute. reflexivity.
  - vm_compute. discriminate.
  - vm_compute. reflexivity.
Defined.

(** A private property written under the name "hasOwnProperty" hides the
    method the snippet of [HasPrivate] calls: the write succeeds and reads
    back, and [HasPrivate] answers false for it. *)
Example HasPrivate_false_for_the_method_name :
  returned ((let* set := SetPrivate 2%nat (Some (JSString "hasOwnProperty"))
                                    (Some (JSNumber 1)) in
             let* got := GetPrivate 2%nat (Some (JSString "hasOwnProperty")) in
             let* has := HasPrivate 2%nat (Some (JSString "hasOwnProperty")) in
             ret (set, got, has)) standard_world)
  = Some (Just true, Some (JSNumber 1), Just false).
Proof. vm_compute. reflexivity. Qed.

(** On an object without a prototype there is no method to call, and
    [HasPrivate] answers false for a property that [GetPrivate] reads. *)
Example HasPrivate_false_without_prototype :
  returned ((let* got := GetPrivate 0%nat (Some (JSString "f")) in
             let* has := HasPrivate 0%nat (Some (JSString "f")) in
             let* real := HasRealNamedProperty 0%nat (Some (JSString "f")) in
             ret (got, has, real)) fixed_store_world)
  = Some (Some (JSNumber 1), Just false, Just true).
Proof. vm_compute. reflexivity. Qed.


Lemma private_reads_are_object_reads_witness :
  GetPrivate 2%nat (Some (JSString "secret")) standard_store_world
  = Returned (Some (JSNumber 1)) standard_store_world
  /\ HasPrivate 2%nat (Some (JSString "secret")) standard_store_world
     = HasRealNamedProperty 2%nat (Some (JSString "secret")) standard_store_world.
Proof.
  apply (private_reads_are_object_reads 2%nat (JSString "secret") (JSNumber 1)
           standard_store_world standard_store_world).
  - vm_compute. reflexivity.
  - vm_compute. reflexivity.
  - vm_compute. reflexivity.
Defined.

Lemma DeletePrivate_reports_true_witness :
  exists w',
    DeletePrivate 0%nat (Some (JSString "f")) fixed_store_world = Returned (Just true) w'
    /\ GetOwnProperty w' 0%nat (ToPropertyKey (JSString "f"))
       = (if deletable (props fixed_object !! ToPropertyKey (JSString "f")) then None
          else props fixed_object !! ToPropertyKey (JSString "f"))
    /\ instances w' = instances fixed_store_world.
Proof.
  apply (DeletePrivate_reports_true 0%nat (JSString "f") fixed_store_world fixed_object).
  - vm_compute. reflexivity.
  - reflexivity.
Defined.

(** [DeletePrivate] answers true, and the property is still there. *)
Example DeletePrivate_true_and_property_stays :
  returned ((let* deleted := DeletePrivate 0%nat (Some (JSString "f")) in
             let* got := GetPrivate 0%nat (Some (JSString "f")) in
             ret (deleted, got)) fixed_store_world)
  = Some (Just true, Some (JSNumber 1)).
Proof. vm_compute. reflexivity. Qed.


(** The host takes the prototype: the first object of [chain_world] now
    inherits from the third. *)
Example SetPrototype_changes_the_prototype :
  returned ((let* before := GetPrototype 0%nat in
             let* set := SetPrototype 0%nat (Some (JSObject 2%nat)) in
             let* after := GetPrototype 0%nat in
             ret (before, set, after)) chain_world)
  = Some (Some (JSObject 1%nat), Just true, Some (JSObject 2%nat)).
Proof. vm_compute. reflexivity. Qed.

(** The host refuses a prototype chain with a cycle, and [SetPrototype]
    returns true all the same: the last object of [chain_world] keeps the
    null prototype when it is given the first as prototype. *)
Example SetPrototype_true_for_a_refused_cycle :
  returned ((let* set := SetPrototype 2%nat (Some (JSObject 0%nat)) in
             let* after := GetPrototype 2%nat in
             ret (set, after)) chain_world)
  = Some (Just true, Some JSNull)
  /\ returned ((let* set := SetPrototype 0%nat (Some (JSObject 0%nat)) in
                let* after := GetPrototype 0%nat in
                ret (set, after)) chain_world)
     = Some (Just true, Some (JSObject 1%nat)).
Proof. split; vm_compute; reflexivity. Qed.

(** The host refuses a new prototype for an object that is not
    extensible, and [SetPrototype] returns true all the same. *)
Example SetPrototype_true_for_a_sealed_object :
  returned ((let* set := SetPrototype 0%nat (Some (JSObject 0%nat)) in
             let* after := GetPrototype 0%nat in
             ret (set, after)) sealed_world)
  = Some (Just true, Some JSNull).
Proof. vm_compute. reflexivity. Qed.


(** Before the call the object of [two_objects_world] does not see "p". *)
Example two_objects_world_before :
  returned (Has_key 0%nat (Some (JSString "p")) two_objects_world) = Some (Just false).
Proof. vm_compute. reflexivity. Qed.

Lemma FindInstanceInPrototypeChain_finds_receiver_witness :
  FindInstanceInPrototypeChain 1 1%nat base_template chain_world
  = Returned (Some (Some (JSObject 1%nat))) chain_world.
Proof.
  apply (FindInstanceInPrototypeChain_finds_receiver 1%nat base_template chain_world 1%nat
           (mkInstanceWrap 0 [] None (Some (mkObjectTemplate (Some derived_template))) 2)
           (mkObjectTemplate (Some derived_template)) derived_template).
  - reflexivity.
  - reflexivity.
  - reflexivity.
  - cbn. repeat constructor.
  - discriminate.
Defined.

Lemma SetInternalField_writes_compose_witness :
  exists w1 w2 w12,
    SetInternalField 0%nat 0 (Some (JSNumber 5)) two_field_world = Returned tt w1
    /\ SetInternalField 0%nat 1 (Some (JSNumber 6)) two_field_world = Returned tt w2
    /\ SetInternalField 0%nat 1 (Some (JSNumber 6)) w1 = Returned tt w12
    /\ SetInternalField 0%nat 0 (Some (JSNumber 5)) w2 = Returned tt w12
    /\ SetInternalField 0%nat 0 (Some (JSNumber 5)) w1 = Returned tt w1
    /\ world_after (let* _ := SetInternalField 0%nat 0 (Some (JSNumber 6)) in
                    SetInternalField 0%nat 0 (Some (JSNumber 5))) two_field_world = w1.
Proof.
  apply (SetInternalField_writes_compose 0%nat 0 1 (Some (JSNumber 5)) (Some (JSNumber 6))
           two_field_world two_field_record).
  - reflexivity.
  - reflexivity.
  - cbn. lia.
  - cbn. lia.
  - lia.
Defined.

Lemma SlowGetInternalField_edges_witness :
  SlowGetInternalField 0%nat 2 two_field_world = Returned None two_field_world
  /\ (exists w', SetInternalField 0%nat 0 None two_field_world = Returned tt w'
                 /\ SlowGetInternalField 0%nat 0 w' = Returned Undefined w')
  /\ SlowGetInternalField 0%nat (-1) two_field_world = UndefinedBehavior.
Proof.
  apply (SlowGetInternalField_edges 0%nat 2 0 (-1) two_field_world two_field_record).
  - reflexivity.
  - reflexivity.
  - cbn. lia.
  - cbn. lia.
  - lia.
Defined.

(** The array [GetOwnPropertyNames] returns is not an ordinary object:
    its "length" is not configurable. The object it was asked about is
    one. *)
Example names_array_is_not_ordinary :
  match GetOwnPropertyNames 0%nat plain_world with
  | Returned (Some (JSObject names)) w => Some (ordinary w names, ordinary w 0%nat)
  | _ => None
  end
  = Some (false, true).
Proof. vm_compute. reflexivity. Qed.


(** The answers of the two writes on NaN: the named [Set] says false, the
    indexed [Set] says true, and both have stored the value. *)
Example Set_of_NaN :
  returned ((let* named := Set_key 0%nat (Some (JSString "a")) (Some JSNaN) in
             let* a := Get_key 0%nat (Some (JSString "a")) in
             let* indexed := Set_index 0%nat 0 (Some JSNaN) in
             let* b := Get_index 0%nat 0 in
             ret (named, a, indexed, b)) plain_world)
  = Some (Just false, Some JSNaN, Just true, Some JSNaN).
Proof. vm_compute. reflexivity. Qed.


Lemma GetConstructorName_reads_the_name_witness :
  GetConstructorName (fun v => ret v) 0%nat named_constructor_world
  = (fun v => ret v) (Some (JSString "Point")) named_constructor_world.
Proof.
  apply (GetConstructorName_reads_the_name (fun v => ret v) 0%nat 1%nat named_constructor_world
           (JSString "Point") true false true false false true); reflexivity.
Defined.

Lemma GetConstructorName_aborts_on_exception_witness :
  GetConstructorName (embedder := raising_embedder) (fun v => ret v) 0%nat
    constructor_getter_world
  = Aborted.
Proof.
  apply (GetConstructorName_aborts_on_exception (embedder := raising_embedder)
           (fun v => ret v) 0%nat constructor_getter_world
           (mkObject ∅ JSNull true
              (Some (CallAccessor (mkAccessorInfo (Some 1%nat) None
                                     (Some (JSString "constructor")) (Some JSUndefined)))))
           1%nat (Some 2%nat) false true
           (mkAccessorInfo (Some 1%nat) None (Some (JSString "constructor")) (Some JSUndefined))
           1%nat (JSString "boom")); reflexivity.
Defined.

(** [Get] of the same property returns the empty handle and leaves the
    exception scheduled; [GetConstructorName] does not return. *)
Example Get_of_a_raising_getter :
  returned (Get_key (embedder := raising_embedder) 0%nat (Some (JSString "constructor"))
              constructor_getter_world)
  = Some None
  /\ scheduled_exception_
       (isolate (world_after (Get_key (embedder := raising_embedder) 0%nat
                                (Some (JSString "constructor")))
                             constructor_getter_world))
     = Some (JSString "boom").
Proof. vm_compute. split; reflexivity. Qed.


(** The same round trip, run: the getter produces 7, the setter raises. *)
Example accessor_round_trip :
  returned ((let* installed := SetAccessor 0%nat (Some (JSString "x")) (Some 1%nat) (Some 3%nat)
                                 None in
             let* get := Get_key 0%nat (Some (JSString "x")) in
             let* set := Set_key 0%nat (Some (JSString "x")) (Some (JSNumber 1)) in
             let* w := get_world in
             ret (installed, get, set, scheduled_exception_ (isolate w))) one_object)
  = Some (Just true, Some (JSNumber 7), Nothing, Some (JSString "boom")).
Proof. vm_compute. reflexivity. Qed.
